(** * Lead storage API of the campaign ingestion pipeline

    A shallow embedding of [web/src/lib/api/leads.ts] (bulk insert, paginated
    and filtered listing, lookup by id, per-campaign statistics) together with
    the record types of [web/src/types].  The Supabase client is the storage
    collaborator: its requests are interpreted over an explicit [World] that
    holds the [leads] table, and every request may be refused with a
    [PostgrestError] chosen by a fault oracle.

    A stored probability is an exact rational ([Q]); JavaScript arithmetic on
    probabilities is IEEE 754 double arithmetic ([number], [to_double]);
    counts, offsets and page numbers are [nat] and [Z]. *)

From Stdlib Require Import String Ascii DecimalString Bool Arith ZArith QArith Qround Qabs Qpower Lia Lqa.
From Stdlib Require Import List Permutation Sorted.
Import ListNotations.

Open Scope string_scope.
Open Scope nat_scope.
Open Scope list_scope.

(** ** Record types ([types/lead.ts], [types/campaign.ts]) *)

Record ReasonCode := {
  feature : string;
  direction : string;
  shap_value : Q
}.

(** [RiskLevel = "Low" | "Medium" | "High"]: the type is erased at run time,
    the table column holds text. *)
Definition RiskLevel (s : string) : Prop :=
  s = "Low" \/ s = "Medium" \/ s = "High".

Record CreateLeadPayload := {
  p_campaign_run_id : string;
  p_row_index : Z;
  p_age : Z;
  p_job : string;
  p_marital : string;
  p_education : string;
  p_default_credit : string;
  p_balance : Z;
  p_housing : string;
  p_loan : string;
  p_contact : string;
  p_day : Z;
  p_month : string;
  p_campaign : Z;
  p_pdays : Z;
  p_previous : Z;
  p_poutcome : string;
  p_probability : Q;
  p_prediction : Z;
  p_prediction_label : string;
  p_risk_level : string;
  p_reason_codes : list ReasonCode
}.

(** [Database["public"]["Tables"]["leads"]["Insert"]]: the same fields. *)
Definition LeadInsert := CreateLeadPayload.

Record Lead := {
  id : string;
  campaign_run_id : string;
  row_index : Z;
  age : Z;
  job : string;
  marital : string;
  education : string;
  default_credit : string;
  balance : Z;
  housing : string;
  loan : string;
  contact : string;
  day : Z;
  month : string;
  campaign : Z;
  pdays : Z;
  previous : Z;
  poutcome : string;
  probability : Q;
  prediction : Z;
  prediction_label : string;
  risk_level : string;
  reason_codes : list ReasonCode;
  created_at : string
}.

Record LeadListItem := {
  li_id : string;
  li_row_index : Z;
  li_age : Z;
  li_job : string;
  li_marital : string;
  li_education : string;
  li_balance : Z;
  li_probability : Q;
  li_risk_level : string
}.

(** The column list of the listing query:
    ["id, row_index, age, job, marital, education, balance, probability, risk_level"]. *)
Definition toListItem (l : Lead) : LeadListItem :=
  {| li_id := id l; li_row_index := row_index l; li_age := age l;
     li_job := job l; li_marital := marital l; li_education := education l;
     li_balance := balance l; li_probability := probability l;
     li_risk_level := risk_level l |}.

(** What a stored row keeps of the payload it was inserted from. *)
Definition lead_payload (l : Lead) : CreateLeadPayload :=
  {| p_campaign_run_id := campaign_run_id l; p_row_index := row_index l;
     p_age := age l; p_job := job l; p_marital := marital l;
     p_education := education l; p_default_credit := default_credit l;
     p_balance := balance l; p_housing := housing l; p_loan := loan l;
     p_contact := contact l; p_day := day l; p_month := month l;
     p_campaign := campaign l; p_pdays := pdays l; p_previous := previous l;
     p_poutcome := poutcome l; p_probability := probability l;
     p_prediction := prediction l; p_prediction_label := prediction_label l;
     p_risk_level := risk_level l; p_reason_codes := reason_codes l |}.

(** ** Campaign records ([types/campaign.ts]) *)

Inductive CampaignStatus := processing | completed | failed.

Record CampaignRun := {
  c_id : string;
  name : string;
  source_filename : string;
  total_rows : Z;
  processed_rows : Z;
  dropped_rows : Z;
  avg_probability : option Q;
  conversion_high : Z;
  conversion_medium : Z;
  conversion_low : Z;
  status : CampaignStatus;
  error_message : option string;
  created_by : option string;
  c_created_at : string;
  updated_at : string
}.

(** Modelled from the spec: the verdict of the BatchValidator (section 4.1),
    whose code is not among the sources.  A rejected upload carries the
    reason, an accepted one the number of rows of the parsed table. *)
Inductive Validation :=
| ValidationError (reason : string)
| ValidTable (rows : nat).

(** Modelled from the spec: what the ScoringClient and the LeadReconciler
    (sections 4.2 and 4.3, code not among the sources) hand to the
    orchestrator: a failure of the engine call, or one insertable lead per
    scored row, the markers of the rows the engine rejected and the average
    probability of the engine's summary. *)
Inductive Scoring :=
| ScoringUnavailableError (reason : string)
| ScoringResponseError (reason : string)
| Scored (leads : list CreateLeadPayload) (invalid_rows : list (Z * string))
         (summary_avg : option Q).

(** ** The storage collaborator (Supabase / PostgREST) *)

Record PostgrestError := {
  code : string;
  message : string
}.

Inductive TextColumn :=
| col_id | col_campaign_run_id | col_risk_level | col_job | col_education.

(** Conditions the query builder can add: [.eq], [.gte], [.lte]. *)
Inductive Cond :=
| eq_text (c : TextColumn) (v : string)
| gte_probability (v : Q)
| lte_probability (v : Q).

Record Query := {
  conds : list Cond;
  count_exact : bool;
  order_probability_desc : bool;
  range : option (Z * Z)
}.

Inductive Request :=
| Select (q : Query)
| SelectSingle (q : Query)
| Insert (batch : list LeadInsert)
| Delete (cs : list Cond).

Inductive Payload :=
| NoData
| Rows (rows : list Lead)
| Row (r : Lead).

Record Response := {
  data : Payload;
  error : option PostgrestError;
  count : option nat
}.

Record World := {
  leads_table : list Lead;
  serial : nat;
  journal : list Request
}.

Definition text_of (c : TextColumn) (l : Lead) : string :=
  match c with
  | col_id => id l
  | col_campaign_run_id => campaign_run_id l
  | col_risk_level => risk_level l
  | col_job => job l
  | col_education => education l
  end.

Definition holds (c : Cond) (l : Lead) : bool :=
  match c with
  | eq_text col v => String.eqb (text_of col l) v
  | gte_probability v => Qle_bool v (probability l)
  | lte_probability v => Qle_bool (probability l) v
  end.

Definition matches (cs : list Cond) (l : Lead) : bool :=
  forallb (fun c => holds c l) cs.

(** [ORDER BY probability DESC]: a stable insertion sort, rows of equal
    probability stay in table order. *)
Fixpoint insert_desc (x : Lead) (l : list Lead) : list Lead :=
  match l with
  | [] => [x]
  | y :: t =>
      if Qle_bool (probability y) (probability x)
      then x :: y :: t
      else y :: insert_desc x t
  end.

Definition order_desc (l : list Lead) : list Lead :=
  fold_right insert_desc [] l.

(** [.range(from, to)]: the rows at positions [from..to], both included. *)
Definition in_range (from to : Z) (l : list Lead) : list Lead :=
  firstn (Z.to_nat (to - from + 1)) (skipn (Z.to_nat from) l).

Definition run_select (q : Query) (tbl : list Lead) : list Lead * nat :=
  let hit := filter (matches (conds q)) tbl in
  let sorted := if order_probability_desc q then order_desc hit else hit in
  let page := match range q with
              | Some (from, to) => in_range from to sorted
              | None => sorted
              end in
  (page, length hit).

(** The error of [.single()] when the query does not select exactly one row. *)
Definition PGRST116 : PostgrestError :=
  {| code := "PGRST116";
     message := "JSON object requested, multiple (or no) rows returned" |}.

(** Computations against the store thread the [World]. *)
Definition M (A : Type) : Type := World -> A * World.

Definition ret {A} (a : A) : M A := fun w => (a, w).

Definition bind {A B} (m : M A) (k : A -> M B) : M B :=
  fun w => let (a, w') := m w in k a w'.

Notation "x <- m ;; k" := (bind m (fun x => k))
  (at level 61, m at next level, right associativity).

(** What an [async] function settles to: a value, or a thrown [Error] of which
    only the message exists ([new Error(message)]). *)
Inductive completion (A : Type) :=
| Return (a : A)
| Throw (msg : string).
Arguments Return {A} a.
Arguments Throw {A} msg.

(** ** JavaScript numbers *)

(** A number is an IEEE 754 double: a finite value, given exactly as a
    rational, an infinity or NaN.  Zero carries no sign here. *)
Inductive number :=
| Finite (value : Q)
| Infinite (negative : bool)
| NaN.

(** ** Options and results of the read operations *)

Record LeadPaginationOptions := {
  page : option Z;
  pageSize : option Z
}.

Record LeadFilterOptions := {
  riskLevel : option string;
  minProbability : option Q;
  maxProbability : option Q;
  f_job : option string;
  f_education : option string
}.

Record PaginatedLeads := {
  pl_data : list LeadListItem;
  pl_total : nat;
  pl_page : Z;
  pl_pageSize : Z;
  pl_totalPages : Z
}.

Record LeadStats := {
  total : nat;
  highRisk : nat;
  mediumRisk : nat;
  lowRisk : nat;
  avgProbability : option number
}.

(** An optional string in a condition: [undefined] and [""] are both falsy. *)
Definition truthy (s : option string) : bool :=
  match s with
  | Some v => negb (String.eqb v "")
  | None => false
  end.

(** [data || []] *)
Definition rows_or_empty (d : Payload) : list Lead :=
  match d with
  | Rows rows => rows
  | _ => []
  end.

(** [Math.ceil(a / b)] on integers, [b <> 0] (JavaScript yields [Infinity] or
    [NaN] for [b = 0], which no integer models). *)
Definition Math_ceil_div (a b : Z) : Z :=
  Qceiling (inject_Z a / inject_Z b).

(** [Math.round]: the nearest integer, halves towards plus infinity. *)
Definition Math_round (x : Q) : Z :=
  Qfloor (x + (1 # 2)).

(** *** Double arithmetic *)

Definition pow2 (k : Z) : Q := (2 ^ k)%Q.

(** [floor (log2 a)] for [0 < a]. *)
Definition ilog2 (a : Q) : Z :=
  let e0 := (Z.log2 (Qnum a) - Z.log2 (Zpos (Qden a)))%Z in
  if Qle_bool (pow2 e0) a then e0 else (e0 - 1)%Z.

(** The nearest integer, ties to the even one. *)
Definition round_half_even (y : Q) : Z :=
  let f := Qfloor y in
  match Qcompare (y - inject_Z f) (1 # 2) with
  | Lt => f
  | Gt => (f + 1)%Z
  | Eq => if Z.even f then f else (f + 1)%Z
  end.

(** The double nearest to a rational, ties to even: 53 significant bits,
    steps of [2^-1074] at the bottom of the range, an infinity from
    [2^1024 - 2^970] on.  A number that arrives from the store, and the
    exact result of every arithmetic operation, is rounded this way. *)
Definition to_double (q : Q) : number :=
  if Qeq_bool q 0 then Finite 0
  else
    let a := Qabs q in
    let E := Z.max (ilog2 a - 52) (-1074) in
    let r := (inject_Z (round_half_even (a / pow2 E)) * pow2 E)%Q in
    if Qle_bool (pow2 1024) r then Infinite (negb (Qle_bool 0 q))
    else Finite (Qred (if Qle_bool 0 q then r else - r)).

Definition is_negative (q : Q) : bool := negb (Qle_bool 0 q).

(** [x + y] *)
Definition js_add (x y : number) : number :=
  match x, y with
  | NaN, _ | _, NaN => NaN
  | Infinite s, Infinite t => if Bool.eqb s t then Infinite s else NaN
  | Infinite s, Finite _ | Finite _, Infinite s => Infinite s
  | Finite a, Finite b => to_double (a + b)
  end.

(** [x * y] *)
Definition js_mul (x y : number) : number :=
  match x, y with
  | NaN, _ | _, NaN => NaN
  | Infinite s, Infinite t => Infinite (xorb s t)
  | Infinite s, Finite b | Finite b, Infinite s =>
      if Qeq_bool b 0 then NaN else Infinite (xorb s (is_negative b))
  | Finite a, Finite b => to_double (a * b)
  end.

(** [x / y] (a zero divisor counts as positive zero) *)
Definition js_div (x y : number) : number :=
  match x, y with
  | NaN, _ | _, NaN => NaN
  | Infinite _, Infinite _ => NaN
  | Infinite s, Finite b => Infinite (xorb s (is_negative b))
  | Finite _, Infinite _ => Finite 0
  | Finite a, Finite b =>
      if Qeq_bool b 0 then (if Qeq_bool a 0 then NaN else Infinite (is_negative a))
      else to_double (a / b)
  end.

(** [Math.round(x)] on a number: infinities and NaN are returned as they
    are. *)
Definition js_round (x : number) : number :=
  match x with
  | Finite q => Finite (inject_Z (Math_round q))
  | _ => x
  end.

Section Storage.

(** The collaborator's own behaviour: when it refuses a request, the
    defaults it fills in for the columns [id] and [created_at], and which
    rows the row-level [DELETE] policy on [leads] lets the session delete
    (a delete passes over the other rows without an error). *)
Variable fault : World -> Request -> option PostgrestError.
Variable gen_random_uuid : nat -> string.
Variable now : World -> string.
Variable may_delete : Lead -> bool.

Definition stored (w : World) (k : nat) (p : LeadInsert) : Lead :=
  {| id := gen_random_uuid k; campaign_run_id := p_campaign_run_id p;
     row_index := p_row_index p; age := p_age p; job := p_job p;
     marital := p_marital p; education := p_education p;
     default_credit := p_default_credit p; balance := p_balance p;
     housing := p_housing p; loan := p_loan p; contact := p_contact p;
     day := p_day p; month := p_month p; campaign := p_campaign p;
     pdays := p_pdays p; previous := p_previous p; poutcome := p_poutcome p;
     probability := p_probability p; prediction := p_prediction p;
     prediction_label := p_prediction_label p; risk_level := p_risk_level p;
     reason_codes := p_reason_codes p; created_at := now w |}.

Fixpoint stored_batch (w : World) (k : nat) (batch : list LeadInsert) : list Lead :=
  match batch with
  | [] => []
  | p :: rest => stored w k p :: stored_batch w (S k) rest
  end.

(** One request.  Every request is journalled; a refused request changes
    nothing else (an [INSERT] of several rows is one statement: all of its
    rows are stored, or none). *)
Definition exec (rq : Request) : M Response :=
  fun w =>
    let logged := journal w ++ [rq] in
    match fault w rq with
    | Some e =>
        ({| data := NoData; error := Some e; count := None |},
         {| leads_table := leads_table w; serial := serial w; journal := logged |})
    | None =>
        match rq with
        | Select q =>
            let (page, n) := run_select q (leads_table w) in
            ({| data := Rows page; error := None;
                count := if count_exact q then Some n else None |},
             {| leads_table := leads_table w; serial := serial w; journal := logged |})
        | SelectSingle q =>
            match fst (run_select q (leads_table w)) with
            | [r] =>
                ({| data := Row r; error := None; count := None |},
                 {| leads_table := leads_table w; serial := serial w; journal := logged |})
            | _ =>
                ({| data := NoData; error := Some PGRST116; count := None |},
                 {| leads_table := leads_table w; serial := serial w; journal := logged |})
            end
        | Insert batch =>
            ({| data := NoData; error := None; count := None |},
             {| leads_table := leads_table w ++ stored_batch w (serial w) batch;
                serial := serial w + length batch; journal := logged |})
        | Delete cs =>
            ({| data := NoData; error := None; count := None |},
             {| leads_table :=
              filter (fun l => negb (matches cs l && may_delete l)) (leads_table w);
                serial := serial w; journal := logged |})
        end
    end.

(** ** [bulkInsertLeads] *)

Definition BATCH_SIZE : nat := 500.

(** [Array.prototype.slice(i, j)] for [0 <= i <= j]. *)
Definition slice {A} (l : list A) (i j : nat) : list A :=
  firstn (j - i) (skipn i l).

(** [{...lead, reason_codes: lead.reason_codes}]: a copy, field by field. *)
Definition toLeadInsert (lead : CreateLeadPayload) : LeadInsert :=
  {| p_campaign_run_id := p_campaign_run_id lead; p_row_index := p_row_index lead;
     p_age := p_age lead; p_job := p_job lead; p_marital := p_marital lead;
     p_education := p_education lead; p_default_credit := p_default_credit lead;
     p_balance := p_balance lead; p_housing := p_housing lead; p_loan := p_loan lead;
     p_contact := p_contact lead; p_day := p_day lead; p_month := p_month lead;
     p_campaign := p_campaign lead; p_pdays := p_pdays lead;
     p_previous := p_previous lead; p_poutcome := p_poutcome lead;
     p_probability := p_probability lead; p_prediction := p_prediction lead;
     p_prediction_label := p_prediction_label lead;
     p_risk_level := p_risk_level lead; p_reason_codes := p_reason_codes lead |}.

(** The [for (let i = 0; i < leads.length; i += BATCH_SIZE)] loop; [fuel]
    bounds the number of iterations and [None] means it ran out. *)
Fixpoint bulk_loop (fuel : nat) (leads : list CreateLeadPayload)
         (i insertedCount : nat) : M (option (completion nat)) :=
  match fuel with
  | O => ret None
  | S fuel' =>
      if i <? length leads then
        let batch := map toLeadInsert (slice leads i (i + BATCH_SIZE)) in
        r <- exec (Insert batch) ;;
        match error r with
        | Some e => ret (Some (Throw (String.append "Failed to insert leads: " (message e))))
        | None => bulk_loop fuel' leads (i + BATCH_SIZE) (insertedCount + length batch)
        end
      else ret (Some (Return insertedCount))
  end.

Definition bulkInsertLeads (leads : list CreateLeadPayload)
  : M (option (completion nat)) :=
  bulk_loop (S (length leads)) leads 0 0.

(** ** [getLeadsByCampaign] *)

Definition getLeadsByCampaign (campaignRunId : string)
           (options : LeadPaginationOptions) (filters : LeadFilterOptions)
  : M (completion PaginatedLeads) :=
  let page := match page options with Some p => p | None => 1%Z end in
  let pageSize := match pageSize options with Some p => p | None => 25%Z end in
  let offset := ((page - 1) * pageSize)%Z in
  let query := [eq_text col_campaign_run_id campaignRunId] in
  let query :=
    match riskLevel filters with
    | Some v => if truthy (Some v) then query ++ [eq_text col_risk_level v] else query
    | None => query
    end in
  let query :=
    match minProbability filters with
    | Some v => query ++ [gte_probability v]
    | None => query
    end in
  let query :=
    match maxProbability filters with
    | Some v => query ++ [lte_probability v]
    | None => query
    end in
  let query :=
    match f_job filters with
    | Some v => if truthy (Some v) then query ++ [eq_text col_job v] else query
    | None => query
    end in
  let query :=
    match f_education filters with
    | Some v => if truthy (Some v) then query ++ [eq_text col_education v] else query
    | None => query
    end in
  r <- exec (Select {| conds := query; count_exact := true;
                       order_probability_desc := true;
                       range := Some (offset, (offset + pageSize - 1)%Z) |}) ;;
  match error r with
  | Some e => ret (Throw (String.append "Failed to fetch leads: " (message e)))
  | None =>
      let total := match count r with Some n => n | None => 0 end in
      ret (Return {| pl_data := map toListItem (rows_or_empty (data r));
                     pl_total := total;
                     pl_page := page;
                     pl_pageSize := pageSize;
                     pl_totalPages := Math_ceil_div (Z.of_nat total) pageSize |})
  end.

(** ** [getLeadById] *)

Definition getLeadById (id : string) : M (completion (option Lead)) :=
  r <- exec (SelectSingle {| conds := [eq_text col_id id]; count_exact := false;
                             order_probability_desc := false; range := None |}) ;;
  match error r with
  | Some e =>
      if String.eqb (code e) "PGRST116" then ret (Return None)
      else ret (Throw (String.append "Failed to fetch lead: " (message e)))
  | None =>
      ret (Return (match data r with Row l => Some l | _ => None end))
  end.

(** ** [deleteLeadsByCampaign] *)

Definition deleteLeadsByCampaign (campaignRunId : string) : M (completion unit) :=
  r <- exec (Delete [eq_text col_campaign_run_id campaignRunId]) ;;
  match error r with
  | Some e => ret (Throw (String.append "Failed to delete leads: " (message e)))
  | None => ret (Return tt)
  end.

(** ** [getLeadStatsByCampaign] *)

Definition getLeadStatsByCampaign (campaignRunId : string)
  : M (completion LeadStats) :=
  r <- exec (Select {| conds := [eq_text col_campaign_run_id campaignRunId];
                       count_exact := false; order_probability_desc := false;
                       range := None |}) ;;
  match error r with
  | Some e => ret (Throw (String.append "Failed to fetch lead stats: " (message e)))
  | None =>
      let leads := rows_or_empty (data r) in
      let total := length leads in
      if total =? 0 then
        ret (Return {| total := 0; highRisk := 0; mediumRisk := 0; lowRisk := 0;
                       avgProbability := None |})
      else
        let highRisk := length (filter (fun l => String.eqb (risk_level l) "High") leads) in
        let mediumRisk := length (filter (fun l => String.eqb (risk_level l) "Medium") leads) in
        let lowRisk := length (filter (fun l => String.eqb (risk_level l) "Low") leads) in
        let avgProbability :=
          js_div (fold_left (fun sum l => js_add sum (to_double (probability l)))
                            leads (Finite 0))
                 (Finite (inject_Z (Z.of_nat total))) in
        ret (Return {| total := total; highRisk := highRisk;
                       mediumRisk := mediumRisk; lowRisk := lowRisk;
                       avgProbability :=
                         Some (js_div (js_round (js_mul avgProbability (Finite 10000)))
                                      (Finite 10000)) |})
  end.

(** ** The ingestion run *)

(** Modelled from the spec: the campaign record the CampaignOrchestrator
    creates with status [processing] before the first network call
    (sections 2 and 4.6; the upload route and [lib/api/campaigns] are not
    among the sources). *)
Definition created_campaign (cid nm file : string) (creator : option string)
           (rows : nat) (w : World) : CampaignRun :=
  {| c_id := cid; name := nm; source_filename := file;
     total_rows := Z.of_nat rows; processed_rows := 0; dropped_rows := 0;
     avg_probability := None;
     conversion_high := 0; conversion_medium := 0; conversion_low := 0;
     status := processing; error_message := None;
     created_by := creator; c_created_at := now w; updated_at := now w |}.

(** Modelled from the spec: the update on failure (section 4.6): the error
    message is captured, [processed_rows] is the number of rows actually
    persisted before the failure and [dropped_rows] accounts for every row
    not persisted (section 3). *)
Definition failed_campaign (c : CampaignRun) (persisted : nat) (msg : string)
           (w : World) : CampaignRun :=
  {| c_id := c_id c; name := name c; source_filename := source_filename c;
     total_rows := total_rows c;
     processed_rows := Z.of_nat persisted;
     dropped_rows := total_rows c - Z.of_nat persisted;
     avg_probability := avg_probability c;
     conversion_high := conversion_high c;
     conversion_medium := conversion_medium c;
     conversion_low := conversion_low c;
     status := failed; error_message := Some msg;
     created_by := created_by c; c_created_at := c_created_at c;
     updated_at := now w |}.

Definition count_risk (tier : string) (leads : list CreateLeadPayload) : nat :=
  length (filter (fun l => String.eqb (p_risk_level l) tier) leads).

(** Modelled from the spec: the update on completion (section 4.6): row
    counts and summary fields are set from the reconciled results, rows the
    engine marked invalid count as dropped (section 4.3). *)
Definition completed_campaign (c : CampaignRun) (leads : list CreateLeadPayload)
           (invalid_rows : list (Z * string)) (avg : option Q)
           (w : World) : CampaignRun :=
  {| c_id := c_id c; name := name c; source_filename := source_filename c;
     total_rows := total_rows c;
     processed_rows := Z.of_nat (length leads);
     dropped_rows := Z.of_nat (length invalid_rows);
     avg_probability := avg;
     conversion_high := Z.of_nat (count_risk "High" leads);
     conversion_medium := Z.of_nat (count_risk "Medium" leads);
     conversion_low := Z.of_nat (count_risk "Low" leads);
     status := completed; error_message := None;
     created_by := created_by c; c_created_at := c_created_at c;
     updated_at := now w |}.

(** Modelled from the spec: the CampaignOrchestrator (sections 2, 4.3, 4.4
    and 4.6), as the sequence of versions of the campaign record it
    persists, oldest first.  Validation runs first and a rejected upload
    creates no record; every later failure ends in a [failed] update; a
    count of valid plus invalid rows different from the row count is a
    reconciliation error; persistence goes through [bulkInsertLeads], and
    the rows it persisted are counted on the [leads] table. *)
Definition ingest (cid nm file : string) (creator : option string)
           (v : Validation) (s : Scoring) : M (list CampaignRun) :=
  match v with
  | ValidationError _ => ret []
  | ValidTable rows =>
      fun w =>
        let c := created_campaign cid nm file creator rows w in
        match s with
        | ScoringUnavailableError msg => ([c; failed_campaign c 0 msg w], w)
        | ScoringResponseError msg => ([c; failed_campaign c 0 msg w], w)
        | Scored leads invalid_rows avg =>
            if length leads + length invalid_rows =? rows then
              let (r, w') := bulkInsertLeads leads w in
              let persisted := length (leads_table w') - length (leads_table w) in
              match r with
              | Some (Return _) =>
                  ([c; completed_campaign c leads invalid_rows avg w'], w')
              | Some (Throw msg) =>
                  ([c; failed_campaign c persisted msg w'], w')
              | None => ([c], w')
              end
            else
              ([c; failed_campaign c 0 "ReconciliationError: row counts do not add up" w], w)
        end
  end.

End Storage.

(** ** Worlds reached by a bulk insert *)

Section Runs.

Variable fault : World -> Request -> option PostgrestError.
Variable gen_random_uuid : nat -> string.
Variable now : World -> string.

(** The world after an accepted [Insert]. *)
Definition committed (w : World) (batch : list LeadInsert) : World :=
  {| leads_table := leads_table w ++ stored_batch gen_random_uuid now w (serial w) batch;
     serial := serial w + length batch;
     journal := journal w ++ [Insert batch] |}.

(** The world after a refused request. *)
Definition refused (w : World) (rq : Request) : World :=
  {| leads_table := leads_table w; serial := serial w;
     journal := journal w ++ [rq] |}.

(** Chunk number [j] (from 0) of a bulk insert. *)
Definition chunk (leads : list CreateLeadPayload) (j : nat) : list LeadInsert :=
  map toLeadInsert (slice leads (j * BATCH_SIZE) (j * BATCH_SIZE + BATCH_SIZE)).

(** The world after the first [j] chunks were accepted. *)
Fixpoint world_after (leads : list CreateLeadPayload) (w : World) (j : nat) : World :=
  match j with
  | O => w
  | S j' => committed (world_after leads w j') (chunk leads j')
  end.

(** Chunk [k] is the first one the store refuses, with error [e]. *)
Definition first_refusal (leads : list CreateLeadPayload) (w : World)
           (k : nat) (e : PostgrestError) : Prop :=
  k * BATCH_SIZE < length leads /\
  (forall j, j < k ->
             fault (world_after leads w j) (Insert (chunk leads j)) = None) /\
  fault (world_after leads w k) (Insert (chunk leads k)) = Some e.

(** The store refuses no chunk of the bulk insert. *)
Definition no_refusal (leads : list CreateLeadPayload) (w : World) : Prop :=
  forall j, j * BATCH_SIZE < length leads ->
            fault (world_after leads w j) (Insert (chunk leads j)) = None.

End Runs.

(** Number of chunks: the ceiling of [n / d]. *)
Definition ceil_div (n d : nat) : nat := (n + (d - 1)) / d.

(** ** Concrete stores and leads *)

(** A session the [DELETE] policy lets delete every lead (an administrator). *)
Definition unrestricted : Lead -> bool := fun _ => true.

Definition never_refuses : World -> Request -> option PostgrestError :=
  fun _ _ => None.

Definition statement_timeout : PostgrestError :=
  {| code := "57014"; message := "canceling statement due to statement timeout" |}.

(** A store that refuses every insert of fewer than 500 rows. *)
Definition refuses_short_batches : World -> Request -> option PostgrestError :=
  fun _ rq =>
    match rq with
    | Insert batch => if length batch <? 500 then Some statement_timeout else None
    | _ => None
    end.

Definition uuid_of (k : nat) : string :=
  String.append "lead-" (NilEmpty.string_of_uint (Nat.to_uint k)).

Definition epoch : World -> string := fun _ => "2025-12-11T03:05:31Z".

Definition empty_world : World :=
  {| leads_table := []; serial := 0; journal := [] |}.

Definition sample_payload (cid : string) (idx : Z) (prob : Q)
           (risk jb edu : string) : CreateLeadPayload :=
  {| p_campaign_run_id := cid; p_row_index := idx; p_age := 41; p_job := jb;
     p_marital := "married"; p_education := edu; p_default_credit := "no";
     p_balance := 1200; p_housing := "yes"; p_loan := "no";
     p_contact := "cellular"; p_day := 5; p_month := "may"; p_campaign := 1;
     p_pdays := (-1); p_previous := 0; p_poutcome := "unknown";
     p_probability := prob; p_prediction := 0; p_prediction_label := "no";
     p_risk_level := risk; p_reason_codes := [] |}.

Definition sample_leads (n : nat) : list CreateLeadPayload :=
  map (fun i => sample_payload "c1" (Z.of_nat i) (1 # 2) "Medium" "admin." "secondary")
      (seq 0 n).

Definition run_one_lead : option (completion nat) * World :=
  bulkInsertLeads refuses_short_batches uuid_of epoch unrestricted (sample_leads 1) empty_world.

Definition run_501_leads : option (completion nat) * World :=
  bulkInsertLeads refuses_short_batches uuid_of epoch unrestricted (sample_leads 501) empty_world.

(** ** Requests of the read operations, and what the claims speak of *)

(** The query [getLeadStatsByCampaign] sends. *)
Definition stats_query (campaignRunId : string) : Query :=
  {| conds := [eq_text col_campaign_run_id campaignRunId];
     count_exact := false; order_probability_desc := false; range := None |}.

(** The persisted leads of a campaign, in table order. *)
Definition leads_of (campaignRunId : string) (tbl : list Lead) : list Lead :=
  filter (fun l => String.eqb (campaign_run_id l) campaignRunId) tbl.

Definition sum_probability (leads : list Lead) : Q :=
  fold_right (fun l acc => probability l + acc)%Q 0%Q leads.

(** The arithmetic mean of the probabilities of a non-empty list of leads. *)
Definition mean_probability (leads : list Lead) : Q :=
  (sum_probability leads / inject_Z (Z.of_nat (length leads)))%Q.

(** The running sum of [getLeadStatsByCampaign], in double arithmetic. *)
Definition js_sum (leads : list Lead) (start : number) : number :=
  fold_left (fun sum l => js_add sum (to_double (probability l))) leads start.

(** The [avgProbability] that [getLeadStatsByCampaign] computes for a
    non-empty list of leads. *)
Definition js_avg (leads : list Lead) : number :=
  js_div (js_round (js_mul (js_div (js_sum leads (Finite 0))
                                   (Finite (inject_Z (Z.of_nat (length leads)))))
                           (Finite 10000)))
         (Finite 10000).

(** [2^-53], half the distance from 1 to the next double, and [2^-31]. *)
Definition ulp53 : Q := 1 # 9007199254740992.
Definition eps31 : Q := 1 # 2147483648.

(** A table with a single lead of the given probability. *)
Definition single_lead_table (p : Q) : World :=
  {| leads_table :=
       [stored uuid_of epoch empty_world 0
               (sample_payload "c1" 0 p "Low" "admin." "secondary")];
     serial := 1; journal := [] |}.

(** A table with a single lead of probability 1/32 = 0.03125. *)
Definition one_lead_table : World :=
  {| leads_table :=
       [stored uuid_of epoch empty_world 0
               (sample_payload "c1" 0 (1 # 32) "Low" "admin." "secondary")];
     serial := 1; journal := [] |}.

(** A table with three leads of campaign ["c1"], one per tier, and one lead
    of another campaign. *)
Definition four_lead_table : World :=
  {| leads_table :=
       stored_batch uuid_of epoch empty_world 0
         [sample_payload "c1" 0 (9 # 10) "High" "technician" "tertiary";
          sample_payload "c1" 1 (1 # 2) "Medium" "admin." "secondary";
          sample_payload "c2" 0 (3 # 4) "High" "admin." "secondary";
          sample_payload "c1" 2 (1 # 10) "Low" "services" "primary"];
     serial := 4; journal := [] |}.

(** The conditions [getLeadsByCampaign] puts into its query. *)
Definition listing_conds (campaignRunId : string) (filters : LeadFilterOptions)
  : list Cond :=
  let query := [eq_text col_campaign_run_id campaignRunId] in
  let query :=
    match riskLevel filters with
    | Some v => if truthy (Some v) then query ++ [eq_text col_risk_level v] else query
    | None => query
    end in
  let query :=
    match minProbability filters with
    | Some v => query ++ [gte_probability v]
    | None => query
    end in
  let query :=
    match maxProbability filters with
    | Some v => query ++ [lte_probability v]
    | None => query
    end in
  let query :=
    match f_job filters with
    | Some v => if truthy (Some v) then query ++ [eq_text col_job v] else query
    | None => query
    end in
  match f_education filters with
  | Some v => if truthy (Some v) then query ++ [eq_text col_education v] else query
  | None => query
  end.

(** The query [getLeadsByCampaign] sends for page [pg] of size [ps]. *)
Definition listing_query (campaignRunId : string) (pg ps : Z)
           (filters : LeadFilterOptions) : Query :=
  {| conds := listing_conds campaignRunId filters; count_exact := true;
     order_probability_desc := true;
     range := Some (((pg - 1) * ps)%Z, ((pg - 1) * ps + ps - 1)%Z) |}.

(** The query [getLeadById] sends. *)
Definition lead_query (lid : string) : Query :=
  {| conds := [eq_text col_id lid]; count_exact := false;
     order_probability_desc := false; range := None |}.

(** A lead satisfies each supplied filter. *)
Definition satisfies (filters : LeadFilterOptions) (l : Lead) : Prop :=
  (forall t, riskLevel filters = Some t -> risk_level l = t) /\
  (forall v, minProbability filters = Some v -> (v <= probability l)%Q) /\
  (forall v, maxProbability filters = Some v -> (probability l <= v)%Q) /\
  (forall j, f_job filters = Some j -> job l = j) /\
  (forall e, f_education filters = Some e -> education l = e).

(** The same, an empty string counting as an omitted filter. *)
Definition satisfies_nonempty (filters : LeadFilterOptions) (l : Lead) : Prop :=
  (forall t, riskLevel filters = Some t -> t <> "" -> risk_level l = t) /\
  (forall v, minProbability filters = Some v -> (v <= probability l)%Q) /\
  (forall v, maxProbability filters = Some v -> (probability l <= v)%Q) /\
  (forall j, f_job filters = Some j -> j <> "" -> job l = j) /\
  (forall e, f_education filters = Some e -> e <> "" -> education l = e).

(** The matching leads of a listing, before sorting and paging. *)
Definition matching (campaignRunId : string) (filters : LeadFilterOptions)
           (tbl : list Lead) : list Lead :=
  filter (matches (listing_conds campaignRunId filters)) tbl.

(** Descending order of probability. *)
Definition desc (a b : Lead) : Prop := (probability b <= probability a)%Q.

Definition no_filters : LeadFilterOptions :=
  {| riskLevel := None; minProbability := None; maxProbability := None;
     f_job := None; f_education := None |}.

(** Only the job filter is supplied, as the empty string. *)
Definition blank_job : LeadFilterOptions :=
  {| riskLevel := None; minProbability := None; maxProbability := None;
     f_job := Some ""; f_education := None |}.

Definition high_risk_only : LeadFilterOptions :=
  {| riskLevel := Some "High"; minProbability := Some (1 # 2); maxProbability := None;
     f_job := None; f_education := None |}.

Definition default_options : LeadPaginationOptions :=
  {| page := None; pageSize := None |}.

Definition technician_lead : Lead :=
  stored uuid_of epoch empty_world 0
         (sample_payload "c1" 0 (9 # 10) "High" "technician" "tertiary").

(** An ingestion of 502 rows, one of them rejected by the engine, against the
    store that refuses short batches: the second chunk (one lead) fails. *)
Definition failing_ingest : list CampaignRun * World :=
  ingest refuses_short_batches uuid_of epoch unrestricted "c1" "May campaign" "may.csv" None
         (ValidTable 502)
         (Scored (sample_leads 501) [(17%Z, "age out of range")] (Some (1 # 2)))
         empty_world.

(** ** [getLeadFilterOptions] *)

(** [[...new Set(values)]]: the distinct values in order of first occurrence. *)
Definition new_Set (values : list string) : list string :=
  fold_left (fun seen v => if existsb (String.eqb v) seen then seen else seen ++ [v])
            values [].

(** [Array.prototype.sort()] without comparator, on strings: ascending by code
    units (a string is the sequence of its units). *)
Fixpoint sort_insert (x : string) (l : list string) : list string :=
  match l with
  | [] => [x]
  | y :: t => if String.leb x y then x :: y :: t else y :: sort_insert x t
  end.

Definition Array_sort (l : list string) : list string :=
  fold_right sort_insert [] l.

Record LeadFilterValues := {
  jobs : list string;
  educationLevels : list string
}.

Section StorageReads.

Variable fault : World -> Request -> option PostgrestError.
Variable gen_random_uuid : nat -> string.
Variable now : World -> string.
Variable may_delete : Lead -> bool.

Definition getLeadFilterOptions (campaignRunId : string)
  : M (completion LeadFilterValues) :=
  r <- exec fault gen_random_uuid now may_delete
            (Select {| conds := [eq_text col_campaign_run_id campaignRunId];
                       count_exact := false; order_probability_desc := false;
                       range := None |}) ;;
  match error r with
  | Some e => ret (Throw (String.append "Failed to fetch filter options: " (message e)))
  | None =>
      let leads := rows_or_empty (data r) in
      let jobs := Array_sort (new_Set (map job leads)) in
      let educationLevels := Array_sort (new_Set (map education leads)) in
      ret (Return {| jobs := jobs; educationLevels := educationLevels |})
  end.

End StorageReads.

(** The request [deleteLeadsByCampaign] sends. *)
Definition delete_request (campaignRunId : string) : Request :=
  Delete [eq_text col_campaign_run_id campaignRunId].

(** The payloads of a bulk insert that belong to a campaign. *)
Definition payloads_of (campaignRunId : string) (leads : list CreateLeadPayload)
  : list CreateLeadPayload :=
  filter (fun p => String.eqb (p_campaign_run_id p) campaignRunId) leads.

(** The items of a page, nothing when the call threw. *)
Definition page_items (c : completion PaginatedLeads) : list LeadListItem :=
  match c with
  | Return r => pl_data r
  | Throw _ => []
  end.

(** Three leads of campaign ["c1"] to insert again. *)
Definition rescored_leads : list CreateLeadPayload :=
  [sample_payload "c1" 0 (4 # 5) "High" "technician" "tertiary";
   sample_payload "c1" 1 (2 # 5) "Medium" "admin." "secondary";
   sample_payload "c1" 2 (1 # 5) "Low" "services" "primary"].

(** The query [getLeadFilterOptions] sends. *)
Definition filter_options_query (campaignRunId : string) : Query :=
  {| conds := [eq_text col_campaign_run_id campaignRunId];
     count_exact := false; order_probability_desc := false; range := None |}.

(** Ascending order of strings, unit by unit. *)
Definition ascending (a b : string) : Prop := String.leb a b = true.

(** ** Responses of the route handlers ([lib/utils/api.ts]) *)

(** The JSON body: [{success: true, data, message?}] or
    [{success: false, error, details?}]; an optional key is [None] when the
    object does not have it. *)
Inductive ApiBody (T : Type) :=
| ApiSuccess (payload : T) (note : option string)
| ApiError (reason : string) (details : option string).
Arguments ApiSuccess {T} payload note.
Arguments ApiError {T} reason details.

Record NextResponse (T : Type) := {
  http_status : Z;
  body : ApiBody T
}.
Arguments http_status {T} _.
Arguments body {T} _.

(** [...(x && { x })]: the key is spread only for a truthy value. *)
Definition spread_if_truthy (x : option string) : option string :=
  if truthy x then x else None.

Definition apiSuccess {T} (payload : T) (note : option string) (status : option Z)
  : NextResponse T :=
  {| http_status := match status with Some s => s | None => 200%Z end;
     body := ApiSuccess payload (spread_if_truthy note) |}.

Definition apiError {T} (reason : string) (status : option Z) (details : option string)
  : NextResponse T :=
  {| http_status := match status with Some s => s | None => 500%Z end;
     body := ApiError reason (spread_if_truthy details) |}.

Record Pagination := {
  pg_page : Z;
  pg_pageSize : Z;
  pg_totalPages : Z;
  pg_totalCount : Z
}.

Record PaginationInfo := {
  info : Pagination;
  hasNextPage : bool;
  hasPreviousPage : bool
}.

Record PaginatedResponse (T : Type) := {
  pr_status : Z;
  pr_data : list T;
  pr_pagination : PaginationInfo
}.
Arguments pr_status {T} _.
Arguments pr_data {T} _.
Arguments pr_pagination {T} _.

Definition apiPaginated {T} (items : list T) (pagination : Pagination)
           (status : option Z) : PaginatedResponse T :=
  {| pr_status := match status with Some s => s | None => 200%Z end;
     pr_data := items;
     pr_pagination :=
       {| info := pagination;
          hasNextPage := (pg_page pagination <? pg_totalPages pagination)%Z;
          hasPreviousPage := (1 <? pg_page pagination)%Z |} |}.

(** [String.prototype.includes]. *)
Fixpoint includes (s pat : string) : bool :=
  if String.prefix pat s then true
  else match s with
       | EmptyString => false
       | String _ rest => includes rest pat
       end.

(** What a [catch] clause receives: an [Error] with its message, or any
    other value. *)
Inductive Thrown :=
| JsError (msg : string)
| NotAnError.

Definition handleApiError {T} (err : Thrown) : NextResponse T :=
  match err with
  | JsError msg =>
      if includes msg "Failed to fetch"
      then apiError "Database connection error" (Some 503%Z) (Some msg)
      else apiError msg (Some 500%Z) None
  | NotAnError => apiError "An unexpected error occurred" (Some 500%Z) None
  end.

Definition requireAuth {T} (userId : option string) : option (NextResponse T) :=
  if truthy userId then None
  else Some (apiError "Authentication required" (Some 401%Z) None).

Definition requireAdminRole {T} (isAdmin : bool) : option (NextResponse T) :=
  if isAdmin then None
  else Some (apiError "Admin access required" (Some 403%Z) None).

(** ** Users ([types/user.ts], [lib/api/users.ts]) *)

Record User := {
  u_id : string;
  username : string;
  u_name : string;
  role : string;
  u_created_at : string;
  u_updated_at : string
}.

Record AuthUser := {
  au_id : string;
  email : string;
  md_username : option string;
  md_name : option string;
  md_role : option string
}.

(** What the user operations read: the user of the session
    ([supabase.auth.getUser()]), the [users] table, and whether the store
    refuses the query. *)
Record Backend := {
  auth_user : option AuthUser;
  users_table : list User;
  users_fault : option PostgrestError
}.

(** [.single()] on the [users] table: exactly one row, or PGRST116. *)
Definition users_single (b : Backend) (cond : User -> bool)
  : option User * option PostgrestError :=
  match users_fault b with
  | Some e => (None, Some e)
  | None =>
      match filter cond (users_table b) with
      | [u] => (Some u, None)
      | _ => (None, Some PGRST116)
      end
  end.

(** [.maybeSingle()]: no row is not an error, several rows are. *)
Definition users_maybeSingle (b : Backend) (cond : User -> bool)
  : option User * option PostgrestError :=
  match users_fault b with
  | Some e => (None, Some e)
  | None =>
      match filter cond (users_table b) with
      | [] => (None, None)
      | [u] => (Some u, None)
      | _ => (None, Some PGRST116)
      end
  end.

Definition getUserById (b : Backend) (uid : string) : completion (option User) :=
  let (found, err) := users_single b (fun u => String.eqb (u_id u) uid) in
  match err with
  | Some e =>
      if String.eqb (code e) "PGRST116" then Return None
      else Throw (String.append "Failed to fetch user: " (message e))
  | None => Return found
  end.

Definition getUserByUsername (b : Backend) (uname : string) : completion (option User) :=
  let (found, err) := users_single b (fun u => String.eqb (username u) uname) in
  match err with
  | Some e =>
      if String.eqb (code e) "PGRST116" then Return None
      else Throw (String.append "Failed to fetch user: " (message e))
  | None => Return found
  end.

Definition getCurrentUser (b : Backend) : completion (option User) :=
  match auth_user b with
  | None => Return None
  | Some authUser => getUserById b (au_id authUser)
  end.

Definition isUsernameAvailable (b : Backend) (uname : string) : completion bool :=
  let (found, err) := users_maybeSingle b (fun u => String.eqb (username u) uname) in
  match err with
  | Some e => Throw (String.append "Failed to check username: " (message e))
  | None => Return (match found with None => true | Some _ => false end)
  end.

(** ** The row-level [DELETE] policy on [leads]
       ([supabase/migrations]: "Users can delete leads from own campaigns") *)

(** [EXISTS (SELECT 1 FROM users WHERE id = auth.uid() AND role = 'admin')] *)
Definition is_admin (uid : option string) (users : list User) : bool :=
  match uid with
  | Some u => existsb (fun x => String.eqb (u_id x) u && String.eqb (role x) "admin") users
  | None => false
  end.

(** A lead may be deleted when its campaign exists and the user of the
    session created it or is an administrator; without a user
    ([auth.uid()] null) no comparison holds. *)
Definition leads_delete_policy (uid : option string) (users : list User)
           (campaigns : list CampaignRun) (l : Lead) : bool :=
  existsb (fun c =>
             String.eqb (c_id c) (campaign_run_id l)
             && (match created_by c, uid with
                 | Some creator, Some u => String.eqb creator u
                 | _, _ => false
                 end
                 || is_admin uid users))
          campaigns.

(** ** Route handlers ([app/api/campaigns/[id]]) *)

Section Routes.

Variable fault : World -> Request -> option PostgrestError.
Variable gen_random_uuid : nat -> string.
Variable now : World -> string.
Variable may_delete : Lead -> bool.

(** [lib/api/campaigns.ts] is not among the sources: its two operations the
    handlers call are parameters. *)
Variable getCampaignById : string -> M (completion (option CampaignRun)).
Variable deleteCampaign : string -> M (completion unit).

(** [GET /api/campaigns/[id]/stats] *)
Definition stats_GET (b : Backend) (campaignId : string) : M (NextResponse LeadStats) :=
  match getCurrentUser b with
  | Throw m => ret (handleApiError (JsError m))
  | Return None => ret (apiError "Authentication required" (Some 401%Z) None)
  | Return (Some currentUser) =>
      c <- getCampaignById campaignId ;;
      match c with
      | Throw m => ret (handleApiError (JsError m))
      | Return None => ret (apiError "Campaign not found" (Some 404%Z) None)
      | Return (Some campaign) =>
          s <- getLeadStatsByCampaign fault gen_random_uuid now may_delete campaignId ;;
          match s with
          | Throw m => ret (handleApiError (JsError m))
          | Return stats => ret (apiSuccess stats None None)
          end
      end
  end.

(** [DELETE /api/campaigns/[id]]; the body of the success response is
    [{ id }]. *)
Definition campaign_DELETE (b : Backend) (cid : string) : M (NextResponse string) :=
  match getCurrentUser b with
  | Throw m => ret (handleApiError (JsError m))
  | Return None => ret (apiError "Authentication required" (Some 401%Z) None)
  | Return (Some currentUser) =>
      c <- getCampaignById cid ;;
      match c with
      | Throw m => ret (handleApiError (JsError m))
      | Return None => ret (apiError "Campaign not found" (Some 404%Z) None)
      | Return (Some campaign) =>
          if negb (match created_by campaign with
                   | Some creator => String.eqb creator (u_id currentUser)
                   | None => false
                   end)
             && negb (String.eqb (role currentUser) "admin")
          then ret (apiError "You don't have permission to delete this campaign"
                             (Some 403%Z) None)
          else
            d <- deleteCampaign cid ;;
            match d with
            | Throw m => ret (handleApiError (JsError m))
            | Return _ => ret (apiSuccess cid (Some "Campaign deleted successfully") None)
            end
      end
  end.

End Routes.

(** A signed-in analyst, an administrator, and a backend for each. *)
Definition analyst : User :=
  {| u_id := "u-1"; username := "sari"; u_name := "Sari"; role := "user";
     u_created_at := "2025-12-11T03:05:31Z"; u_updated_at := "2025-12-11T03:05:31Z" |}.

Definition administrator : User :=
  {| u_id := "u-2"; username := "budi"; u_name := "Budi"; role := "admin";
     u_created_at := "2025-12-11T03:05:31Z"; u_updated_at := "2025-12-11T03:05:31Z" |}.

Definition signed_in (u : User) : Backend :=
  {| auth_user := Some {| au_id := u_id u; email := "user@example.com";
                          md_username := None; md_name := None; md_role := None |};
     users_table := [analyst; administrator];
     users_fault := None |}.

Definition campaign_of (creator : option string) : CampaignRun :=
  {| c_id := "c1"; name := "May campaign"; source_filename := "may.csv";
     total_rows := 3; processed_rows := 3; dropped_rows := 0;
     avg_probability := Some (1 # 2);
     conversion_high := 1; conversion_medium := 1; conversion_low := 1;
     status := completed; error_message := None; created_by := creator;
     c_created_at := "2025-12-11T03:05:31Z"; updated_at := "2025-12-11T03:05:31Z" |}.

(** A campaigns library over a single campaign; the delete marks the journal
    with a request so that it can be seen. *)
Definition lookup_campaign (creator : option string)
  : string -> M (completion (option CampaignRun)) :=
  fun cid => ret (Return (if String.eqb cid "c1" then Some (campaign_of creator) else None)).

Definition cascade_delete : string -> M (completion unit) :=
  fun cid w =>
    (Return tt,
     {| leads_table :=
          filter (fun l => negb (String.eqb (campaign_run_id l) cid)) (leads_table w);
        serial := serial w;
        journal := journal w ++ [delete_request cid] |}).

(** A store that refuses every read. *)
Definition refuses_reads : World -> Request -> option PostgrestError :=
  fun _ rq =>
    match rq with
    | Select _ | SelectSingle _ => Some statement_timeout
    | _ => None
    end.

Definition two_per_page (pg : Z) : LeadPaginationOptions :=
  {| page := Some pg; pageSize := Some 2%Z |}.

(** * Facts *)

Lemma toLeadInsert_id (p : CreateLeadPayload) : toLeadInsert p = p.
Proof. destruct p; reflexivity. Qed.

Lemma map_toLeadInsert (l : list CreateLeadPayload) : map toLeadInsert l = l.
Proof.
  induction l as [|p l IH]; simpl; [reflexivity|].
  now rewrite toLeadInsert_id, IH.
Qed.

Lemma slice_length {A} (l : list A) (i j : nat) :
  length (slice l i j) = Nat.min (j - i) (length l - i).
Proof. unfold slice. now rewrite length_firstn, length_skipn. Qed.

Lemma firstn_slice {A} (l : list A) (i d : nat) :
  firstn i l ++ slice l i (i + d) = firstn (i + d) l.
Proof.
  unfold slice. replace (i + d - i) with d by lia.
  rewrite <- (firstn_skipn i l) at 3.
  rewrite firstn_app, length_firstn.
  destruct (Nat.le_gt_cases i (length l)) as [Hle|Hgt].
  - rewrite Nat.min_l by assumption.
    replace (i + d - i) with d by lia.
    rewrite firstn_all2 with (n := i + d) (l := firstn i l); [reflexivity|].
    rewrite length_firstn. lia.
  - rewrite Nat.min_r by lia.
    rewrite skipn_all2 by lia. rewrite !firstn_nil, !app_nil_r.
    rewrite firstn_all2 with (n := i + d) (l := firstn i l); [reflexivity|].
    rewrite length_firstn. lia.
Qed.

Lemma ceil_div_bounds (n : nat) :
  n <= ceil_div n BATCH_SIZE * BATCH_SIZE < n + BATCH_SIZE.
Proof.
  unfold ceil_div, BATCH_SIZE.
  pose proof (Nat.div_mod_eq (n + (500 - 1)) 500) as E.
  pose proof (Nat.mod_upper_bound (n + (500 - 1)) 500) as B.
  lia.
Qed.

Lemma ceil_div_unique (n j : nat) :
  n <= j * BATCH_SIZE -> j * BATCH_SIZE < n + BATCH_SIZE ->
  ceil_div n BATCH_SIZE = j.
Proof.
  intros Hlo Hhi. pose proof (ceil_div_bounds n) as B.
  unfold BATCH_SIZE in *. lia.
Qed.

Lemma concat_chunks (leads : list CreateLeadPayload) (m : nat) :
  concat (map (chunk leads) (seq 0 m)) = firstn (m * BATCH_SIZE) leads.
Proof.
  induction m as [|m IH]; [reflexivity|].
  rewrite seq_S, map_app, concat_app, IH. cbn [map concat Nat.add].
  rewrite app_nil_r. unfold chunk. rewrite map_toLeadInsert.
  rewrite firstn_slice. f_equal. lia.
Qed.

Section RunFacts.

Variable fault : World -> Request -> option PostgrestError.
Variable gen_random_uuid : nat -> string.
Variable now : World -> string.
Variable may_delete : Lead -> bool.

Local Abbreviation stored_batch := (stored_batch gen_random_uuid now).
Local Abbreviation exec := (exec fault gen_random_uuid now may_delete).
Local Abbreviation bulk_loop := (bulk_loop fault gen_random_uuid now may_delete).
Local Abbreviation bulkInsertLeads := (bulkInsertLeads fault gen_random_uuid now may_delete).
Local Abbreviation committed := (committed gen_random_uuid now).
Local Abbreviation world_after := (world_after gen_random_uuid now).
Local Abbreviation first_refusal := (first_refusal fault gen_random_uuid now).
Local Abbreviation no_refusal := (no_refusal fault gen_random_uuid now).

Lemma stored_batch_payload (w : World) (batch : list LeadInsert) (k : nat) :
  map lead_payload (stored_batch w k batch) = batch.
Proof.
  revert k. induction batch as [|p batch IH]; intros k; simpl; [reflexivity|].
  rewrite IH. f_equal. destruct p; reflexivity.
Qed.

Lemma stored_batch_length (w : World) (batch : list LeadInsert) (k : nat) :
  length (stored_batch w k batch) = length batch.
Proof.
  rewrite <- (length_map lead_payload). now rewrite stored_batch_payload.
Qed.

Lemma exec_insert_accepted (w : World) (batch : list LeadInsert) :
  fault w (Insert batch) = None ->
  exec (Insert batch) w =
    ({| data := NoData; error := None; count := None |}, committed w batch).
Proof. intros H. unfold exec. rewrite H. reflexivity. Qed.

Lemma exec_refused (w : World) (rq : Request) (e : PostgrestError) :
  fault w rq = Some e ->
  exec rq w = ({| data := NoData; error := Some e; count := None |}, refused w rq).
Proof. intros H. unfold exec. rewrite H. reflexivity. Qed.

Lemma chunk_length (leads : list CreateLeadPayload) (j : nat) :
  length (chunk leads j) = Nat.min BATCH_SIZE (length leads - j * BATCH_SIZE).
Proof.
  unfold chunk. rewrite length_map, slice_length. unfold BATCH_SIZE. lia.
Qed.

Lemma world_after_payloads (leads : list CreateLeadPayload) (w : World) (j : nat) :
  map lead_payload (leads_table (world_after leads w j)) =
  map lead_payload (leads_table w) ++ firstn (j * BATCH_SIZE) leads.
Proof.
  induction j as [|j IH]; cbn [world_after committed leads_table].
  - simpl. now rewrite app_nil_r.
  - rewrite map_app, IH, stored_batch_payload, <- app_assoc. f_equal.
    unfold chunk. rewrite map_toLeadInsert.
    rewrite firstn_slice. f_equal. lia.
Qed.

Lemma world_after_journal (leads : list CreateLeadPayload) (w : World) (j : nat) :
  journal (world_after leads w j) =
  journal w ++ map (fun i => Insert (chunk leads i)) (seq 0 j).
Proof.
  induction j as [|j IH].
  - simpl. now rewrite app_nil_r.
  - rewrite seq_S, map_app. simpl. rewrite IH. now rewrite <- app_assoc.
Qed.

Lemma world_after_table_length (leads : list CreateLeadPayload) (w : World) (j : nat) :
  length (leads_table (world_after leads w j)) =
  length (leads_table w) + Nat.min (j * BATCH_SIZE) (length leads).
Proof.
  rewrite <- (length_map lead_payload), world_after_payloads.
  now rewrite length_app, length_map, length_firstn.
Qed.

Lemma bulk_loop_accepted (leads : list CreateLeadPayload) (w : World) :
  no_refusal leads w ->
  forall fuel j cnt,
    length leads + BATCH_SIZE <= (j + fuel) * BATCH_SIZE ->
    j * BATCH_SIZE < length leads + BATCH_SIZE ->
    bulk_loop fuel leads (j * BATCH_SIZE) cnt (world_after leads w j) =
    (Some (Return (cnt + (length leads - j * BATCH_SIZE))),
     world_after leads w (ceil_div (length leads) BATCH_SIZE)).
Proof.
  intros Hok. induction fuel as [|fuel IH]; intros j cnt Hfuel Hj.
  - exfalso. unfold BATCH_SIZE in *. lia.
  - cbn [bulk_loop]. destruct (Nat.ltb_spec (j * BATCH_SIZE) (length leads)) as [Hlt|Hge].
    + unfold bind. fold (chunk leads j).
      rewrite exec_insert_accepted by (apply Hok; assumption).
      cbn [error]. fold (world_after leads w (S j)).
      replace (j * BATCH_SIZE + BATCH_SIZE) with (S j * BATCH_SIZE) by lia.
      rewrite IH by (unfold BATCH_SIZE in *; lia).
      f_equal. f_equal. f_equal. rewrite chunk_length.
      unfold BATCH_SIZE in *. lia.
    + unfold ret. rewrite (ceil_div_unique (length leads) j) by assumption.
      f_equal. f_equal. f_equal. lia.
Qed.

Lemma bulk_loop_refused (leads : list CreateLeadPayload) (w : World)
      (k : nat) (e : PostgrestError) :
  first_refusal leads w k e ->
  forall fuel j cnt,
    length leads + BATCH_SIZE <= (j + fuel) * BATCH_SIZE ->
    j <= k ->
    bulk_loop fuel leads (j * BATCH_SIZE) cnt (world_after leads w j) =
    (Some (Throw (String.append "Failed to insert leads: " (message e))),
     refused (world_after leads w k) (Insert (chunk leads k))).
Proof.
  intros (Hk & Hbefore & Hat).
  induction fuel as [|fuel IH]; intros j cnt Hfuel Hj.
  - exfalso. unfold BATCH_SIZE in *. lia.
  - cbn [bulk_loop].
    destruct (Nat.ltb_spec (j * BATCH_SIZE) (length leads)) as [Hlt|Hge];
      [|exfalso; unfold BATCH_SIZE in *; lia].
    unfold bind. fold (chunk leads j).
    destruct (Nat.eq_dec j k) as [->|Hne].
    + rewrite (exec_refused _ _ _ Hat). reflexivity.
    + rewrite exec_insert_accepted by (apply Hbefore; lia).
      cbn [error]. fold (world_after leads w (S j)).
      replace (j * BATCH_SIZE + BATCH_SIZE) with (S j * BATCH_SIZE) by lia.
      apply IH; unfold BATCH_SIZE in *; lia.
Qed.

(** The loop never runs out of fuel. *)
Lemma bulkInsertLeads_settles (leads : list CreateLeadPayload) (w : World) :
  fst (bulkInsertLeads leads w) <> None.
Proof.
  unfold bulkInsertLeads.
  assert (G : forall fuel i cnt w0,
             length leads + BATCH_SIZE <= i + fuel * BATCH_SIZE ->
             i < length leads + BATCH_SIZE ->
             fst (bulk_loop fuel leads i cnt w0) <> None).
  { induction fuel as [|fuel IH]; intros i cnt w0 Hfuel Hi.
    - exfalso. unfold BATCH_SIZE in *. lia.
    - cbn [bulk_loop]. destruct (Nat.ltb_spec i (length leads)) as [Hlt|Hge].
      + unfold bind.
        destruct (exec _ w0) as [r w1]. destruct (error r).
        * discriminate.
        * apply IH; unfold BATCH_SIZE in *; lia.
      + discriminate. }
  apply G; unfold BATCH_SIZE; lia.
Qed.

(** C1 (amended): when chunk [k] (counted from 0) is the first one the
    store refuses, the rows of the chunks before it stay in the table, no
    later chunk is attempted, and the caller gets a thrown error whose
    message is ["Failed to insert leads: "] followed by the message of the
    storage error. *)
Theorem bulkInsertLeads_keeps_earlier_chunks
        (leads : list CreateLeadPayload) (w : World)
        (k : nat) (e : PostgrestError) :
  first_refusal leads w k e ->
  exists w',
    bulkInsertLeads leads w =
      (Some (Throw (String.append "Failed to insert leads: " (message e))), w') /\
    map lead_payload (leads_table w') =
      map lead_payload (leads_table w) ++ firstn (k * BATCH_SIZE) leads /\
    length (leads_table w') = length (leads_table w) + k * BATCH_SIZE /\
    journal w' =
      journal w ++ map (fun j => Insert (chunk leads j)) (seq 0 (S k)).
Proof.
  intros Hk. exists (refused (world_after leads w k) (Insert (chunk leads k))).
  split; [|split; [|split]].
  - unfold bulkInsertLeads.
    apply (bulk_loop_refused leads w k e Hk (S (length leads)) 0 0).
    + unfold BATCH_SIZE. lia.
    + lia.
  - cbn [refused leads_table]. apply world_after_payloads.
  - cbn [refused leads_table]. rewrite world_after_table_length.
    destruct Hk as (Hk & _). lia.
  - cbn [refused journal]. rewrite world_after_journal, seq_S, map_app.
    now rewrite <- app_assoc.
Qed.

(** C2: when the store refuses no chunk, the leads are cut, in order, into
    [ceil (n / 500)] consecutive chunks of 500 records, the last one holding
    the remainder; one insert is issued per chunk and no other request; the
    call returns [n] and every lead is in the table.  For 1200 leads the
    chunks have 500, 500 and 200 records. *)
Theorem bulkInsertLeads_chunks (leads : list CreateLeadPayload) (w : World) :
  no_refusal leads w ->
  exists w',
    bulkInsertLeads leads w = (Some (Return (length leads)), w') /\
    journal w' =
      journal w ++ map (fun j => Insert (chunk leads j))
                       (seq 0 (ceil_div (length leads) BATCH_SIZE)) /\
    concat (map (chunk leads) (seq 0 (ceil_div (length leads) BATCH_SIZE))) = leads /\
    (forall j, j < ceil_div (length leads) BATCH_SIZE ->
               length (chunk leads j) = Nat.min 500 (length leads - j * 500) /\
               1 <= length (chunk leads j) <= 500 /\
               (S j < ceil_div (length leads) BATCH_SIZE -> length (chunk leads j) = 500)) /\
    length leads <= ceil_div (length leads) BATCH_SIZE * 500 < length leads + 500 /\
    (length leads = 1200 ->
     map (fun j => length (chunk leads j)) (seq 0 (ceil_div (length leads) BATCH_SIZE))
     = [500; 500; 200]) /\
    map lead_payload (leads_table w') = map lead_payload (leads_table w) ++ leads.
Proof.
  intros Hok. pose proof (ceil_div_bounds (length leads)) as B.
  exists (world_after leads w (ceil_div (length leads) BATCH_SIZE)).
  split; [|split; [|split; [|split; [|split; [|split]]]]].
  - unfold bulkInsertLeads.
    pose proof (bulk_loop_accepted leads w Hok (S (length leads)) 0 0) as H.
    change (0 * BATCH_SIZE) with 0 in H. cbn [world_after Nat.add] in H.
    rewrite Nat.sub_0_r in H. apply H; unfold BATCH_SIZE; lia.
  - apply world_after_journal.
  - rewrite concat_chunks. apply firstn_all2. lia.
  - intros j Hj. rewrite chunk_length. unfold BATCH_SIZE in *. lia.
  - exact B.
  - intros E. rewrite (ceil_div_unique (length leads) 3) by (rewrite E; unfold BATCH_SIZE; lia).
    cbn [seq map]. rewrite !chunk_length, E. reflexivity.
  - rewrite world_after_payloads. f_equal. apply firstn_all2. lia.
Qed.

End RunFacts.

(** ** Concrete runs of the bulk insert *)

Lemma bulkInsertLeads_keeps_earlier_chunks_witness :
  fst run_501_leads =
    Some (Throw "Failed to insert leads: canceling statement due to statement timeout") /\
  length (leads_table (snd run_501_leads)) = 500.
Proof.
  destruct (bulkInsertLeads_keeps_earlier_chunks
              refuses_short_batches uuid_of epoch unrestricted (sample_leads 501) empty_world
              1 statement_timeout) as (w' & Hrun & _ & Hlen & _).
  - split; [vm_compute; lia|split].
    + intros j Hj. assert (j = 0) as -> by lia. vm_compute. reflexivity.
    + vm_compute. reflexivity.
  - unfold run_501_leads. rewrite Hrun. split; [reflexivity|exact Hlen].
Defined.

Lemma bulkInsertLeads_chunks_witness :
  fst (bulkInsertLeads never_refuses uuid_of epoch unrestricted (sample_leads 1200) empty_world)
  = Some (Return 1200).
Proof.
  destruct (bulkInsertLeads_chunks never_refuses uuid_of epoch unrestricted
                                   (sample_leads 1200) empty_world)
    as (w' & Hrun & _).
  - intros j _. reflexivity.
  - rewrite Hrun. unfold sample_leads. rewrite length_map, length_seq. reflexivity.
Defined.

(** C1 as stated fails: a store that refuses the first short batch makes a
    bulk insert of one lead and a bulk insert of 501 leads throw the same
    error, although the first committed no record and the second 500; what
    the caller receives does not tell the number of committed records. *)
Lemma bulkInsertLeads_count_not_reported :
  fst run_one_lead =
    Some (Throw "Failed to insert leads: canceling statement due to statement timeout") /\
  fst run_501_leads =
    Some (Throw "Failed to insert leads: canceling statement due to statement timeout") /\
  length (leads_table (snd run_one_lead)) = 0 /\
  length (leads_table (snd run_501_leads)) = 500 /\
  ~ (exists read : option (completion nat) -> nat,
        read (fst run_one_lead) = length (leads_table (snd run_one_lead)) /\
        read (fst run_501_leads) = length (leads_table (snd run_501_leads))).
Proof.
  assert (E1 : fst run_one_lead =
               Some (Throw "Failed to insert leads: canceling statement due to statement timeout"))
    by (vm_compute; reflexivity).
  assert (E2 : fst run_501_leads =
               Some (Throw "Failed to insert leads: canceling statement due to statement timeout"))
    by (vm_compute; reflexivity).
  assert (L1 : length (leads_table (snd run_one_lead)) = 0) by (vm_compute; reflexivity).
  assert (L2 : length (leads_table (snd run_501_leads)) = 500) by (vm_compute; reflexivity).
  repeat split; try assumption.
  intros (read & R1 & R2). rewrite E1, L1 in R1. rewrite E2, L2 in R2.
  rewrite R1 in R2. discriminate R2.
Qed.

(** ** Statistics of a campaign *)

Lemma matches_campaign (cid : string) (tbl : list Lead) :
  filter (matches [eq_text col_campaign_run_id cid]) tbl = leads_of cid tbl.
Proof.
  unfold leads_of. apply filter_ext. intros l. cbn. apply andb_true_r.
Qed.

Lemma tier_counts (leads : list Lead) :
  (forall l, In l leads -> RiskLevel (risk_level l)) ->
  length (filter (fun l => String.eqb (risk_level l) "High") leads)
  + length (filter (fun l => String.eqb (risk_level l) "Medium") leads)
  + length (filter (fun l => String.eqb (risk_level l) "Low") leads)
  = length leads.
Proof.
  induction leads as [|l leads IH]; intros Hall; [reflexivity|].
  assert (Hrest : forall x, In x leads -> RiskLevel (risk_level x))
    by (intros x Hx; apply Hall; now right).
  specialize (IH Hrest).
  destruct (Hall l (or_introl Logic.eq_refl)) as [E|[E|E]];
    cbn [filter]; rewrite E; cbn [String.eqb Ascii.eqb Bool.eqb andb length]; lia.
Qed.

(** ** Double arithmetic *)

Open Scope Q_scope.

Lemma round_half_even_near (y : Q) :
  y - (1 # 2) <= inject_Z (round_half_even y) <= y + (1 # 2).
Proof.
  unfold round_half_even.
  pose proof (Qfloor_le y) as Hlo. pose proof (Qlt_floor y) as Hhi.
  rewrite inject_Z_plus in Hhi. change (inject_Z 1) with 1 in Hhi.
  destruct (Qcompare (y - inject_Z (Qfloor y)) (1 # 2)) eqn:C.
  - apply Qeq_alt in C.
    destruct (Z.even (Qfloor y));
      [|rewrite inject_Z_plus; change (inject_Z 1) with 1]; lra.
  - apply Qlt_alt in C. lra.
  - apply Qgt_alt in C. rewrite inject_Z_plus. change (inject_Z 1) with 1. lra.
Qed.

Lemma pow2_pos (k : Z) : 0 < pow2 k.
Proof. apply Qpower_0_lt. reflexivity. Qed.

Lemma pow2_plus (a b : Z) : pow2 (a + b) == pow2 a * pow2 b.
Proof. apply Qpower_plus. discriminate. Qed.

Lemma pow2_Z (k : Z) : (0 <= k)%Z -> pow2 k == inject_Z (2 ^ k).
Proof. intros H. unfold pow2. now rewrite Zpower_Qpower. Qed.

Lemma ilog2_lower (a : Q) : 0 < a -> pow2 (ilog2 a) <= a.
Proof.
  intros Ha. unfold ilog2.
  destruct (Qle_bool (pow2 (Z.log2 (Qnum a) - Z.log2 (Z.pos (Qden a)))) a) eqn:T.
  - now apply Qle_bool_iff.
  - destruct a as [n d]. cbn [Qnum Qden] in *.
    assert (Hn : (0 < n)%Z) by (unfold Qlt in Ha; cbn in Ha; lia).
    pose proof (Z.log2_spec n Hn) as [Hn1 _].
    pose proof (Z.log2_spec (Z.pos d) (Pos2Z.is_pos d)) as [_ Hd2].
    pose proof (Z.log2_nonneg n) as Hln. pose proof (Z.log2_nonneg (Z.pos d)) as Hld.
    replace (Z.log2 n - Z.log2 (Z.pos d) - 1)%Z
      with (Z.log2 n - Z.succ (Z.log2 (Z.pos d)))%Z by lia.
    unfold pow2 at 1. rewrite Qpower_minus by discriminate.
    fold (pow2 (Z.log2 n)). fold (pow2 (Z.succ (Z.log2 (Z.pos d)))).
    rewrite !pow2_Z by lia.
    set (A := (2 ^ Z.log2 n)%Z) in *. set (D := (2 ^ Z.succ (Z.log2 (Z.pos d)))%Z) in *.
    assert (HA : (0 < A)%Z) by (subst A; apply Z.pow_pos_nonneg; lia).
    apply Qle_shift_div_r.
    + change 0 with (inject_Z 0). rewrite <- Zlt_Qlt. lia.
    + unfold Qle, Qmult, inject_Z. cbn. nia.
Qed.

Lemma pow2_m52 : pow2 (-52) == 1 # 4503599627370496.
Proof. reflexivity. Qed.

Lemma pow2_min_subnormal : pow2 (-1074) <= 1 # 4503599627370496.
Proof. apply Qle_bool_iff. vm_compute. reflexivity. Qed.

Lemma no_overflow_below : 2000000000000 < pow2 1024.
Proof. vm_compute. reflexivity. Qed.

(** Rounding a rational of magnitude at most [B] to a double gives a finite
    number that differs from it by at most [B * 2^-53]. *)
Lemma to_double_error (B q : Q) :
  1 <= B -> B <= 1000000000000 -> - B <= q <= B ->
  exists r, to_double q = Finite r /\ - (B * ulp53) <= r - q <= B * ulp53.
Proof.
  intros HB1 HB2 [Hq1 Hq2]. unfold to_double, ulp53.
  destruct (Qeq_bool q 0) eqn:Z0.
  { apply Qeq_bool_iff in Z0. exists 0. split; [reflexivity|]. lra. }
  apply Qeq_bool_neq in Z0.
  set (a := Qabs q).
  assert (Ha : 0 < a /\ a <= B /\
               ((Qle_bool 0 q = true /\ a == q) \/ (Qle_bool 0 q = false /\ a == - q))).
  { destruct (Qlt_le_dec q 0) as [Hneg|Hpos].
    - assert (E : a == - q) by (apply Qabs_neg; lra).
      split; [lra|]. split; [lra|]. right. split; [|exact E].
      destruct (Qle_bool 0 q) eqn:T; [apply Qle_bool_iff in T; lra|reflexivity].
    - assert (E : a == q) by (apply Qabs_pos; lra).
      assert (0 < q) by (destruct (Qlt_le_dec 0 q); [assumption|exfalso; apply Z0; lra]).
      split; [lra|]. split; [lra|]. left. split; [|exact E].
      now apply Qle_bool_iff. }
  clearbody a. destruct Ha as (Ha0 & HaB & Hsign).
  set (E := Z.max (ilog2 a - 52) (-1074)).
  pose proof (pow2_pos E) as HpE.
  assert (HpEB : pow2 E <= B * (1 # 4503599627370496)).
  { subst E. destruct (Z.max_spec (ilog2 a - 52) (-1074)) as [[_ ->]|[_ ->]].
    - pose proof pow2_min_subnormal. lra.
    - replace (ilog2 a - 52)%Z with (ilog2 a + -52)%Z by lia.
      rewrite pow2_plus, pow2_m52. pose proof (ilog2_lower a Ha0). lra. }
  clearbody E.
  pose proof (round_half_even_near (a / pow2 E)) as [Hm1 Hm2].
  set (m := inject_Z (round_half_even (a / pow2 E))) in *. clearbody m.
  assert (Hy : a / pow2 E * pow2 E == a) by (field; lra).
  set (y := a / pow2 E) in *. clearbody y.
  set (p := pow2 E) in *. clearbody p.
  assert (Hr1 : (y - (1 # 2)) * p <= m * p) by (apply Qmult_le_compat_r; lra).
  assert (Hr2 : m * p <= (y + (1 # 2)) * p) by (apply Qmult_le_compat_r; lra).
  set (r0 := m * p) in *.
  assert (Hr : - (p * (1 # 2)) <= r0 - a <= p * (1 # 2)).
  { split.
    - setoid_replace (r0 - a) with (r0 - y * p) by (rewrite Hy; reflexivity).
      setoid_replace ((y - (1 # 2)) * p) with (y * p - p * (1 # 2)) in Hr1 by ring. lra.
    - setoid_replace (r0 - a) with (r0 - y * p) by (rewrite Hy; reflexivity).
      setoid_replace ((y + (1 # 2)) * p) with (y * p + p * (1 # 2)) in Hr2 by ring. lra. }
  clearbody r0. clear Hr1 Hr2 Hm1 Hm2 Hy.
  pose proof no_overflow_below as Hbig. set (big := pow2 1024) in *. clearbody big.
  destruct (Qle_bool big r0) eqn:Ov; [apply Qle_bool_iff in Ov; lra|].
  eexists. split; [reflexivity|]. rewrite Qred_correct.
  destruct Hsign as [[-> Hs]|[-> Hs]]; lra.
Qed.

Lemma Math_round_near (x : Q) :
  (x - (1 # 2) < inject_Z (Math_round x) <= x + (1 # 2))%Q.
Proof.
  unfold Math_round. split.
  - pose proof (Qlt_floor (x + (1 # 2))) as H.
    rewrite inject_Z_plus in H.
    apply Qplus_lt_l with (z := 1%Q).
    eapply Qle_lt_trans; [|exact H].
    apply Qle_lteq. right. ring.
  - apply Qfloor_le.
Qed.

Lemma js_sum_error (leads : list Lead) :
  (forall l, In l leads -> 0 <= probability l <= 1) ->
  forall (s0 P0 : Q) (k0 : Z),
    (0 <= k0)%Z -> (k0 + Z.of_nat (length leads) <= 1048576)%Z ->
    0 <= P0 <= inject_Z k0 ->
    - (inject_Z k0 * eps31) <= s0 - P0 <= inject_Z k0 * eps31 ->
    exists s,
      js_sum leads (Finite s0) = Finite s /\
      0 <= P0 + sum_probability leads <= inject_Z (k0 + Z.of_nat (length leads)) /\
      - (inject_Z (k0 + Z.of_nat (length leads)) * eps31)
      <= s - (P0 + sum_probability leads)
      <= inject_Z (k0 + Z.of_nat (length leads)) * eps31.
Proof.
  unfold eps31.
  induction leads as [|l leads IH]; intros Hall s0 P0 k0 Hk0 Hlen HP Hs.
  - exists s0. cbn [js_sum fold_left sum_probability fold_right length Z.of_nat].
    rewrite Z.add_0_r. split; [reflexivity|]. split; lra.
  - assert (Hp : 0 <= probability l <= 1) by (apply Hall; now left).
    assert (Hrest : forall x, In x leads -> 0 <= probability x <= 1)
      by (intros x Hx; apply Hall; now right).
    cbn [length] in Hlen. rewrite Nat2Z.inj_succ in Hlen.
    assert (Hkq : inject_Z k0 <= 1048576).
    { change 1048576 with (inject_Z 1048576). rewrite <- Zle_Qle. lia. }
    destruct (to_double_error 1 (probability l)) as (x & Hx & Hxe); [lra|lra|lra|].
    unfold ulp53 in Hxe.
    destruct (to_double_error 2097152 (s0 + x)) as (s1 & Hs1 & Hs1e); [lra|lra|lra|].
    unfold ulp53 in Hs1e.
    destruct (IH Hrest s1 (P0 + probability l) (k0 + 1)%Z) as (s & Hrun & Hsum & Herr).
    + lia.
    + lia.
    + rewrite inject_Z_plus. change (inject_Z 1) with 1. lra.
    + rewrite inject_Z_plus. change (inject_Z 1) with 1. lra.
    + exists s. cbn [js_sum fold_left]. rewrite Hx. cbn [js_add]. rewrite Hs1.
      fold (js_sum leads (Finite s1)).
      cbn [length sum_probability fold_right]. fold (sum_probability leads).
      rewrite Nat2Z.inj_succ.
      replace (k0 + Z.succ (Z.of_nat (length leads)))%Z
        with (k0 + 1 + Z.of_nat (length leads))%Z by lia.
      split; [exact Hrun|]. split; lra.
Qed.

Lemma scale_le (x c n : Q) : 0 < n -> x * n <= c * n -> x <= c.
Proof.
  intros Hn H. apply Qmult_le_r with (z := n); assumption.
Qed.

(** The statistics' average of a non-empty list of at most 2^20 leads with
    probabilities in [0, 1]. *)
Lemma js_avg_error (leads : list Lead) :
  leads <> [] ->
  (Z.of_nat (length leads) <= 1048576)%Z ->
  (forall l, In l leads -> 0 <= probability l <= 1) ->
  exists (a : Q) (k : Z),
    js_avg leads = Finite a /\
    Finite a = to_double (inject_Z k / 10000) /\
    - ((1 # 2) + (1 # 100000))
    <= inject_Z k - mean_probability leads * 10000
    <= (1 # 2) + (1 # 100000) /\
    - ((1 # 20000) + (1 # 1000000000))
    <= a - mean_probability leads
    <= (1 # 20000) + (1 # 1000000000).
Proof.
  intros Hne Hlen Hall.
  destruct (js_sum_error leads Hall 0 0 0%Z) as (s & Hs & HP & Hse);
    [lia|lia|change (inject_Z 0) with 0; lra
    |change (inject_Z 0) with 0; unfold eps31; lra|].
  rewrite Z.add_0_l in HP, Hse. rewrite Qplus_0_l in HP, Hse. unfold eps31 in Hse.
  set (n := inject_Z (Z.of_nat (length leads))) in *.
  assert (Hn1 : 1 <= n).
  { subst n. change 1 with (inject_Z 1). rewrite <- Zle_Qle.
    destruct leads; [now elim Hne|cbn [length]; lia]. }
  assert (Hn2 : n <= 1048576).
  { subst n. change 1048576 with (inject_Z 1048576). rewrite <- Zle_Qle. lia. }
  unfold js_avg. rewrite Hs. fold n. cbn [js_div].
  assert (Hn0 : Qeq_bool n 0 = false).
  { destruct (Qeq_bool n 0) eqn:T; [apply Qeq_bool_iff in T; lra|reflexivity]. }
  rewrite Hn0.
  unfold mean_probability. fold n.
  set (P := sum_probability leads) in *. clearbody P.
  assert (Ht : s / n * n == s) by (field; lra).
  assert (Hm : P / n * n == P) by (field; lra).
  set (t := s / n) in *. set (mean := P / n) in *. clearbody t mean n.
  assert (Hmean : 0 <= mean <= 1).
  { split; [apply (scale_le 0 mean n)|apply (scale_le mean 1 n)]; lra. }
  assert (Htm1 : mean - (1 # 2147483648) <= t).
  { apply (scale_le (mean - (1 # 2147483648)) t n); [lra|].
    setoid_replace ((mean - (1 # 2147483648)) * n)
      with (mean * n - n * (1 # 2147483648)) by ring. lra. }
  assert (Htm2 : t <= mean + (1 # 2147483648)).
  { apply (scale_le t (mean + (1 # 2147483648)) n); [lra|].
    setoid_replace ((mean + (1 # 2147483648)) * n)
      with (mean * n + n * (1 # 2147483648)) by ring. lra. }
  destruct (to_double_error 2 t) as (mf & Hmf & Hmfe); [lra|lra|lra|].
  unfold ulp53 in Hmfe. rewrite Hmf. cbn [js_mul].
  destruct (to_double_error 32768 (mf * 10000)) as (y & Hy & Hye); [lra|lra|lra|].
  unfold ulp53 in Hye. rewrite Hy. cbn [js_round js_div].
  change (Qeq_bool 10000 0) with false. cbv iota.
  pose proof (Math_round_near y) as [Hk1 Hk2].
  set (k := Math_round y) in *. clearbody k.
  assert (Hkq : inject_Z k / 10000 * 10000 == inject_Z k) by (field; lra).
  set (kq := inject_Z k / 10000) in *.
  destruct (to_double_error 2 kq) as (a & Ha & Hae); [lra|lra|lra|].
  unfold ulp53 in Hae.
  exists a, k. split; [exact Ha|]. split; [symmetry; exact Ha|]. split; lra.
Qed.

Open Scope string_scope.
Open Scope nat_scope.
Open Scope list_scope.

Section StatsFacts.

Variable fault : World -> Request -> option PostgrestError.
Variable gen_random_uuid : nat -> string.
Variable now : World -> string.
Variable may_delete : Lead -> bool.

Local Abbreviation getLeadStatsByCampaign :=
  (getLeadStatsByCampaign fault gen_random_uuid now may_delete).

Lemma stats_world (cid : string) (w : World) :
  snd (getLeadStatsByCampaign cid w) = refused w (Select (stats_query cid)).
Proof.
  unfold getLeadStatsByCampaign, bind, exec.
  fold (stats_query cid).
  destruct (fault w (Select (stats_query cid))); cbn.
  - reflexivity.
  - destruct (length _ =? 0); reflexivity.
Qed.

Lemma stats_depends (cid : string) (w w' : World) :
  leads_table w = leads_table w' ->
  fault w (Select (stats_query cid)) = fault w' (Select (stats_query cid)) ->
  fst (getLeadStatsByCampaign cid w) = fst (getLeadStatsByCampaign cid w').
Proof.
  intros Ht Hf.
  unfold getLeadStatsByCampaign, bind, exec.
  fold (stats_query cid). rewrite <- Hf, <- Ht.
  destruct (fault w (Select (stats_query cid))); cbn.
  - reflexivity.
  - destruct (length _ =? 0); reflexivity.
Qed.

(** What the function returns when the store answers. *)
Lemma stats_answered (cid : string) (w : World) :
  fault w (Select (stats_query cid)) = None ->
  fst (getLeadStatsByCampaign cid w) =
  let leads := leads_of cid (leads_table w) in
  if length leads =? 0 then
    Return {| total := 0; highRisk := 0; mediumRisk := 0; lowRisk := 0;
              avgProbability := None |}
  else
    Return {| total := length leads;
              highRisk := length (filter (fun l => String.eqb (risk_level l) "High") leads);
              mediumRisk := length (filter (fun l => String.eqb (risk_level l) "Medium") leads);
              lowRisk := length (filter (fun l => String.eqb (risk_level l) "Low") leads);
              avgProbability := Some (js_avg leads) |}.
Proof.
  intros Hf.
  unfold getLeadStatsByCampaign, bind, exec.
  fold (stats_query cid). rewrite Hf.
  cbn [run_select stats_query conds count_exact order_probability_desc range
       error data rows_or_empty fst snd].
  rewrite matches_campaign.
  destruct (length (leads_of cid (leads_table w)) =? 0); reflexivity.
Qed.

(** C3: when every persisted lead of the campaign carries one of the three
    tiers, the tier counts of the statistics add up to [total], the number
    of persisted leads of the campaign. *)
Theorem stats_tiers_sum_to_total (cid : string) (w : World) :
  fault w (Select (stats_query cid)) = None ->
  (forall l, In l (leads_of cid (leads_table w)) -> RiskLevel (risk_level l)) ->
  exists s,
    fst (getLeadStatsByCampaign cid w) = Return s /\
    highRisk s + mediumRisk s + lowRisk s = total s /\
    total s = length (leads_of cid (leads_table w)).
Proof.
  intros Hf Htiers. rewrite (stats_answered cid w Hf). cbv zeta.
  destruct (Nat.eqb_spec (length (leads_of cid (leads_table w))) 0) as [E|E].
  - eexists. split; [reflexivity|]. cbn. now rewrite E.
  - eexists. split; [reflexivity|]. cbn [highRisk mediumRisk lowRisk total].
    split; [apply tier_counts; assumption|reflexivity].
Qed.

(** C4: for a campaign without persisted leads the statistics are all zero
    and the mean is null. *)
Theorem stats_of_empty_campaign (cid : string) (w : World) :
  fault w (Select (stats_query cid)) = None ->
  leads_of cid (leads_table w) = [] ->
  fst (getLeadStatsByCampaign cid w) =
  Return {| total := 0; highRisk := 0; mediumRisk := 0; lowRisk := 0;
            avgProbability := None |}.
Proof.
  intros Hf Hnone. rewrite (stats_answered cid w Hf), Hnone. reflexivity.
Qed.

(** C5 (amended): for a campaign with at least one and at most 2^20
    persisted leads whose probabilities lie between 0 and 1,
    [avgProbability] is the mean rounded to 4 decimal places in double
    arithmetic: it is the double nearest to [k / 10000] for an integer [k]
    that differs from 10000 times the arithmetic mean by at most 0.5 +
    0.00001 (close to a tie the rounding may go either way); it lies within
    0.00005 + 10^-9 of the arithmetic mean. *)
Theorem stats_avg_is_rounded_mean (cid : string) (w : World) :
  fault w (Select (stats_query cid)) = None ->
  leads_of cid (leads_table w) <> [] ->
  (Z.of_nat (length (leads_of cid (leads_table w))) <= 1048576)%Z ->
  (forall l, In l (leads_of cid (leads_table w)) ->
             (0 <= probability l <= 1)%Q) ->
  exists s a k,
    fst (getLeadStatsByCampaign cid w) = Return s /\
    avgProbability s = Some (Finite a) /\
    Finite a = to_double (inject_Z k / 10000) /\
    (- ((1 # 2) + (1 # 100000))
     <= inject_Z k - mean_probability (leads_of cid (leads_table w)) * 10000
     <= (1 # 2) + (1 # 100000))%Q /\
    (- ((1 # 20000) + (1 # 1000000000))
     <= a - mean_probability (leads_of cid (leads_table w))
     <= (1 # 20000) + (1 # 1000000000))%Q.
Proof.
  intros Hf Hsome Hlen Hall.
  rewrite (stats_answered cid w Hf). cbv zeta.
  set (leads := leads_of cid (leads_table w)) in *.
  destruct (Nat.eqb_spec (length leads) 0) as [E|E].
  { destruct leads; [now elim Hsome|discriminate E]. }
  destruct (js_avg_error leads Hsome Hlen Hall) as (a & k & Ha & Hk & Hkm & Ham).
  eexists. exists a, k. split; [reflexivity|]. cbn [avgProbability].
  split; [now rewrite Ha|]. split; [exact Hk|]. split; [exact Hkm|exact Ham].
Qed.

(** C6: the aggregation only reads: the table is the same after one call
    and after two, the only requests are the two selects, and when the
    store answers both selects alike the two results are identical. *)
Theorem stats_idempotent_read_only (cid : string) (w : World) :
  let first := getLeadStatsByCampaign cid w in
  let second := getLeadStatsByCampaign cid (snd first) in
  leads_table (snd first) = leads_table w /\
  leads_table (snd second) = leads_table w /\
  journal (snd second) =
    journal w ++ [Select (stats_query cid); Select (stats_query cid)] /\
  (fault w (Select (stats_query cid)) = fault (snd first) (Select (stats_query cid)) ->
   fst first = fst second).
Proof.
  cbv zeta. rewrite !stats_world. cbn [refused leads_table journal].
  split; [reflexivity|]. split; [reflexivity|]. split.
  - now rewrite <- app_assoc.
  - intros Hf. apply stats_depends; [reflexivity|exact Hf].
Qed.

End StatsFacts.

(** ** Concrete statistics *)

Lemma stats_tiers_sum_to_total_witness :
  exists s,
    fst (getLeadStatsByCampaign never_refuses uuid_of epoch unrestricted "c1" four_lead_table)
    = Return s /\
    highRisk s + mediumRisk s + lowRisk s = total s /\
    total s = 3.
Proof.
  destruct (stats_tiers_sum_to_total never_refuses uuid_of epoch unrestricted "c1" four_lead_table)
    as (s & Hs & Hsum & Htotal).
  - reflexivity.
  - intros l Hl. unfold RiskLevel. cbn in Hl.
    destruct Hl as [<-|[<-|[<-|[]]]]; cbn; auto.
  - exists s. split; [exact Hs|]. split; [exact Hsum|]. rewrite Htotal. reflexivity.
Defined.

Lemma stats_of_empty_campaign_witness :
  fst (getLeadStatsByCampaign never_refuses uuid_of epoch unrestricted "c3" four_lead_table) =
  Return {| total := 0; highRisk := 0; mediumRisk := 0; lowRisk := 0;
            avgProbability := None |}.
Proof.
  apply (stats_of_empty_campaign never_refuses uuid_of epoch unrestricted "c3" four_lead_table);
    reflexivity.
Defined.

Lemma stats_avg_is_rounded_mean_witness :
  exists s a,
    fst (getLeadStatsByCampaign never_refuses uuid_of epoch unrestricted "c1"
           four_lead_table) = Return s /\
    avgProbability s = Some (Finite a) /\
    (- ((1 # 20000) + (1 # 1000000000))
     <= a - mean_probability (leads_of "c1" (leads_table four_lead_table))
     <= (1 # 20000) + (1 # 1000000000))%Q.
Proof.
  destruct (stats_avg_is_rounded_mean never_refuses uuid_of epoch unrestricted "c1"
                                      four_lead_table)
    as (s & a & k & Hs & Ha & _ & _ & Hnear).
  - reflexivity.
  - cbn. discriminate.
  - vm_compute. discriminate.
  - intros l Hl. cbn in Hl.
    destruct Hl as [<-|[<-|[<-|[]]]]; split; vm_compute; discriminate.
  - exists s, a. split; [exact Hs|]. split; [exact Ha|exact Hnear].
Defined.

Lemma stats_idempotent_read_only_witness :
  fst (getLeadStatsByCampaign never_refuses uuid_of epoch unrestricted "c1" four_lead_table) =
  fst (getLeadStatsByCampaign never_refuses uuid_of epoch unrestricted "c1"
         (snd (getLeadStatsByCampaign never_refuses uuid_of epoch unrestricted "c1" four_lead_table))).
Proof.
  apply (stats_idempotent_read_only never_refuses uuid_of epoch unrestricted "c1" four_lead_table).
  reflexivity.
Defined.

(** C5 as stated fails: a campaign whose only lead has probability 0.03125
    gets as [avgProbability] the double nearest to 0.0313, which is not the
    mean 0.03125. *)
Lemma stats_avg_differs_from_mean :
  exists s a,
    fst (getLeadStatsByCampaign never_refuses uuid_of epoch unrestricted "c1"
           one_lead_table) = Return s /\
    avgProbability s = Some (Finite a) /\
    Finite a = to_double (313 # 10000) /\
    (a == 4510805386774289 # 144115188075855872)%Q /\
    (mean_probability (leads_of "c1" (leads_table one_lead_table)) == 1 # 32)%Q /\
    ~ (a == mean_probability (leads_of "c1" (leads_table one_lead_table)))%Q.
Proof.
  eexists. eexists. split; [vm_compute; reflexivity|].
  split; [reflexivity|]. split; [vm_compute; reflexivity|].
  split; [reflexivity|]. split; [reflexivity|].
  vm_compute. discriminate.
Qed.

(** Close to a tie the double arithmetic decides: a single lead of
    probability 0.00015 gets 0.0001, because the double product
    [0.00015 * 10000] lies below 1.5, and one of probability 0.00035 gets
    0.0004, because the double product [0.00035 * 10000] is exactly 3.5. *)
Lemma stats_avg_near_ties :
  fst (getLeadStatsByCampaign never_refuses uuid_of epoch unrestricted "c1"
         (single_lead_table (15 # 100000)))
  = Return {| total := 1; highRisk := 0; mediumRisk := 0; lowRisk := 1;
              avgProbability := Some (to_double (1 # 10000)) |} /\
  fst (getLeadStatsByCampaign never_refuses uuid_of epoch unrestricted "c1"
         (single_lead_table (35 # 100000)))
  = Return {| total := 1; highRisk := 0; mediumRisk := 0; lowRisk := 1;
              avgProbability := Some (to_double (4 # 10000)) |}.
Proof. split; vm_compute; reflexivity. Qed.

(** ** Ordering and paging *)

Lemma insert_desc_perm (x : Lead) (l : list Lead) :
  Permutation (x :: l) (insert_desc x l).
Proof.
  induction l as [|y t IH]; cbn [insert_desc]; [reflexivity|].
  destruct (Qle_bool (probability y) (probability x)); [reflexivity|].
  rewrite perm_swap. now apply perm_skip.
Qed.

Lemma order_desc_perm (l : list Lead) : Permutation l (order_desc l).
Proof.
  induction l as [|x l IH]; cbn [order_desc fold_right]; [constructor|].
  fold (order_desc l). rewrite <- insert_desc_perm. now apply perm_skip.
Qed.

Lemma insert_desc_hd (x a : Lead) (l : list Lead) :
  desc a x -> HdRel desc a l -> HdRel desc a (insert_desc x l).
Proof.
  intros Hax Hal. destruct l as [|y t]; cbn [insert_desc].
  - now constructor.
  - destruct (Qle_bool (probability y) (probability x)); constructor;
      [assumption|now inversion Hal].
Qed.

Lemma insert_desc_sorted (x : Lead) (l : list Lead) :
  Sorted desc l -> Sorted desc (insert_desc x l).
Proof.
  induction 1 as [|y t Ht IH Hy]; cbn [insert_desc].
  - repeat constructor.
  - destruct (Qle_bool (probability y) (probability x)) eqn:E.
    + apply Qle_bool_iff in E. repeat constructor; assumption.
    + constructor; [exact IH|]. apply insert_desc_hd; [|exact Hy].
      unfold desc. destruct (Qlt_le_dec (probability y) (probability x)) as [Hlt|Hle].
      * apply Qlt_le_weak in Hlt. apply Qle_bool_iff in Hlt. congruence.
      * exact Hle.
Qed.

Lemma order_desc_sorted (l : list Lead) : Sorted desc (order_desc l).
Proof.
  induction l as [|x l IH]; cbn [order_desc fold_right]; [constructor|].
  now apply insert_desc_sorted.
Qed.

Lemma In_firstn {A} (x : A) (n : nat) (l : list A) : In x (firstn n l) -> In x l.
Proof.
  intros H. rewrite <- (firstn_skipn n l). apply in_or_app. now left.
Qed.

Lemma In_skipn {A} (x : A) (n : nat) (l : list A) : In x (skipn n l) -> In x l.
Proof.
  intros H. rewrite <- (firstn_skipn n l). apply in_or_app. now right.
Qed.

Lemma in_range_incl (from to : Z) (l : list Lead) (x : Lead) :
  In x (in_range from to l) -> In x l.
Proof. unfold in_range. intros H. eapply In_skipn, In_firstn, H. Qed.

Lemma in_range_length (pg ps : Z) (l : list Lead) :
  (1 <= ps)%Z ->
  (Z.of_nat (length (in_range ((pg - 1) * ps) ((pg - 1) * ps + ps - 1) l)) <= ps)%Z.
Proof.
  intros Hps. unfold in_range. rewrite length_firstn.
  replace ((pg - 1) * ps + ps - 1 - (pg - 1) * ps + 1)%Z with ps by lia. lia.
Qed.

(** Every row of a list is on one of its pages. *)
Lemma in_some_page (ps : Z) (l : list Lead) (x : Lead) :
  (1 <= ps)%Z -> In x l ->
  exists pg, (1 <= pg)%Z /\ In x (in_range ((pg - 1) * ps) ((pg - 1) * ps + ps - 1) l).
Proof.
  intros Hps Hx. apply In_nth_error in Hx. destruct Hx as [i Hi].
  set (n := Z.to_nat ps). assert (Hn : n <> 0) by lia.
  exists (Z.of_nat (i / n) + 1)%Z. split; [lia|].
  unfold in_range.
  replace (Z.of_nat (i / n) + 1 - 1)%Z with (Z.of_nat (i / n)) by lia.
  replace (Z.of_nat (i / n) * ps + ps - 1 - Z.of_nat (i / n) * ps + 1)%Z with ps by lia.
  fold n. replace (Z.to_nat (Z.of_nat (i / n) * ps)) with (i / n * n) by (subst n; nia).
  apply nth_error_In with (n := i mod n).
  rewrite nth_error_firstn.
  pose proof (Nat.mod_upper_bound i n Hn) as Hm.
  destruct (Nat.ltb_spec (i mod n) n) as [_|]; [|lia].
  rewrite nth_error_skipn.
  replace (i / n * n + i mod n) with i; [exact Hi|].
  pose proof (Nat.div_mod_eq i n). lia.
Qed.

(** [Math.ceil(total / pageSize)] is the least number of pages that hold
    [total] rows. *)
Lemma Math_ceil_div_spec (a b : Z) :
  (1 <= b)%Z ->
  ((Math_ceil_div a b - 1) * b < a <= Math_ceil_div a b * b)%Z.
Proof.
  intros Hb. unfold Math_ceil_div.
  set (x := (inject_Z a / inject_Z b)%Q).
  assert (Hbq : (0 < inject_Z b)%Q).
  { change 0%Q with (inject_Z 0). rewrite <- Zlt_Qlt. lia. }
  assert (Hx : (x * inject_Z b == inject_Z a)%Q).
  { unfold x. field. intros E. rewrite E in Hbq. now apply Qlt_irrefl in Hbq. }
  split.
  - rewrite Zlt_Qlt, inject_Z_mult, <- Hx.
    apply Qmult_lt_compat_r; [exact Hbq|apply Qceiling_lt].
  - rewrite Zle_Qle, inject_Z_mult, <- Hx.
    apply Qmult_le_compat_r; [apply Qle_ceiling|now apply Qlt_le_weak].
Qed.

(** ** Filters *)

Lemma matches_snoc (cs : list Cond) (c : Cond) (l : Lead) :
  matches (cs ++ [c]) l = matches cs l && holds c l.
Proof.
  unfold matches. rewrite forallb_app. cbn [forallb]. now rewrite andb_true_r.
Qed.

Lemma truthy_Some (v : string) : truthy (Some v) = true <-> v <> "".
Proof.
  cbn [truthy]. destruct (String.eqb_spec v ""); cbn; split; intros; congruence.
Qed.

(** A row passes the conditions of the listing query exactly when it belongs
    to the campaign and satisfies the non-empty filters. *)
Lemma listing_conds_spec (cid : string) (filters : LeadFilterOptions) (l : Lead) :
  matches (listing_conds cid filters) l = true <->
  campaign_run_id l = cid /\ satisfies_nonempty filters l.
Proof.
  unfold listing_conds, satisfies_nonempty.
  destruct filters as [rl mn mx jb ed]; cbn [riskLevel minProbability maxProbability f_job f_education].
  assert (Hbase : matches [eq_text col_campaign_run_id cid] l = true <->
                  campaign_run_id l = cid).
  { cbn. rewrite andb_true_r. apply String.eqb_eq. }
  revert Hbase. generalize [eq_text col_campaign_run_id cid] as q0. intros q0 H0.
  (* risk tier *)
  set (q1 := match rl with
             | Some v => if truthy (Some v) then q0 ++ [eq_text col_risk_level v] else q0
             | None => q0 end).
  assert (H1 : matches q1 l = true <->
               campaign_run_id l = cid /\
               (forall t, rl = Some t -> t <> "" -> risk_level l = t)).
  { subst q1. destruct rl as [v|].
    - destruct (truthy (Some v)) eqn:T.
      + apply truthy_Some in T. rewrite matches_snoc, andb_true_iff, H0.
        cbn [holds text_of]. rewrite String.eqb_eq. split.
        * intros [Hc Hr]. split; [exact Hc|]. intros t [= <-] _. exact Hr.
        * intros [Hc Hr]. split; [exact Hc|]. now apply Hr.
      + assert (v = "") as -> by
            (cbn in T; destruct (String.eqb_spec v ""); [assumption|discriminate]).
        rewrite H0. split.
        * intros Hc. split; [exact Hc|]. intros t [= <-] Hne. now elim Hne.
        * now intros [Hc _].
    - rewrite H0. split; [intros Hc; split; [exact Hc|discriminate]|now intros [Hc _]]. }
  clearbody q1. clear H0 q0.
  (* lower bound *)
  set (q2 := match mn with Some v => q1 ++ [gte_probability v] | None => q1 end).
  assert (H2 : matches q2 l = true <->
               campaign_run_id l = cid /\
               (forall t, rl = Some t -> t <> "" -> risk_level l = t) /\
               (forall v, mn = Some v -> (v <= probability l)%Q)).
  { subst q2. destruct mn as [v|].
    - rewrite matches_snoc, andb_true_iff, H1. cbn [holds]. rewrite Qle_bool_iff. split.
      + intros [[Hc Hr] Hv]. repeat split; try assumption. now intros v' [= <-].
      + intros (Hc & Hr & Hv). repeat split; try assumption. now apply Hv.
    - rewrite H1. split.
      + intros [Hc Hr]. repeat split; try assumption. discriminate.
      + intros (Hc & Hr & _). now split. }
  clearbody q2. clear H1 q1.
  (* upper bound *)
  set (q3 := match mx with Some v => q2 ++ [lte_probability v] | None => q2 end).
  assert (H3 : matches q3 l = true <->
               campaign_run_id l = cid /\
               (forall t, rl = Some t -> t <> "" -> risk_level l = t) /\
               (forall v, mn = Some v -> (v <= probability l)%Q) /\
               (forall v, mx = Some v -> (probability l <= v)%Q)).
  { subst q3. destruct mx as [v|].
    - rewrite matches_snoc, andb_true_iff, H2. cbn [holds]. rewrite Qle_bool_iff. split.
      + intros [(Hc & Hr & Hn) Hv]. repeat split; try assumption. now intros v' [= <-].
      + intros (Hc & Hr & Hn & Hv). repeat split; try assumption. now apply Hv.
    - rewrite H2. split.
      + intros (Hc & Hr & Hn). repeat split; try assumption. discriminate.
      + intros (Hc & Hr & Hn & _). now repeat split. }
  clearbody q3. clear H2 q2.
  (* job *)
  set (q4 := match jb with
             | Some v => if truthy (Some v) then q3 ++ [eq_text col_job v] else q3
             | None => q3 end).
  assert (H4 : matches q4 l = true <->
               campaign_run_id l = cid /\
               (forall t, rl = Some t -> t <> "" -> risk_level l = t) /\
               (forall v, mn = Some v -> (v <= probability l)%Q) /\
               (forall v, mx = Some v -> (probability l <= v)%Q) /\
               (forall j, jb = Some j -> j <> "" -> job l = j)).
  { subst q4. destruct jb as [v|].
    - destruct (truthy (Some v)) eqn:T.
      + apply truthy_Some in T. rewrite matches_snoc, andb_true_iff, H3.
        cbn [holds text_of]. rewrite String.eqb_eq. split.
        * intros [(Hc & Hr & Hn & Hx) Hj]. repeat split; try assumption.
          now intros j [= <-] _.
        * intros (Hc & Hr & Hn & Hx & Hj). repeat split; try assumption. now apply Hj.
      + assert (v = "") as -> by
            (cbn in T; destruct (String.eqb_spec v ""); [assumption|discriminate]).
        rewrite H3. split.
        * intros (Hc & Hr & Hn & Hx). repeat split; try assumption.
          intros j [= <-] Hne. now elim Hne.
        * intros (Hc & Hr & Hn & Hx & _). now repeat split.
    - rewrite H3. split.
      + intros (Hc & Hr & Hn & Hx). repeat split; try assumption. discriminate.
      + intros (Hc & Hr & Hn & Hx & _). now repeat split. }
  clearbody q4. clear H3 q3.
  (* education *)
  destruct ed as [v|].
  - destruct (truthy (Some v)) eqn:T.
    + apply truthy_Some in T. rewrite matches_snoc, andb_true_iff, H4.
      cbn [holds text_of]. rewrite String.eqb_eq. split.
      * intros [(Hc & Hr & Hn & Hx & Hj) He]. repeat split; try assumption.
        now intros e [= <-] _.
      * intros (Hc & Hr & Hn & Hx & Hj & He). repeat split; try assumption. now apply He.
    + assert (v = "") as -> by
          (cbn in T; destruct (String.eqb_spec v ""); [assumption|discriminate]).
      rewrite H4. split.
      * intros (Hc & Hr & Hn & Hx & Hj). repeat split; try assumption.
        intros e [= <-] Hne. now elim Hne.
      * intros (Hc & Hr & Hn & Hx & Hj & _). now repeat split.
  - rewrite H4. split.
    + intros (Hc & Hr & Hn & Hx & Hj). repeat split; try assumption. discriminate.
    + intros (Hc & Hr & Hn & Hx & Hj & _). now repeat split.
Qed.

(** ** Listing and lookup *)

Section ReadFacts.

Variable fault : World -> Request -> option PostgrestError.
Variable gen_random_uuid : nat -> string.
Variable now : World -> string.
Variable may_delete : Lead -> bool.

Local Abbreviation exec := (exec fault gen_random_uuid now may_delete).
Local Abbreviation getLeadsByCampaign := (getLeadsByCampaign fault gen_random_uuid now may_delete).
Local Abbreviation getLeadById := (getLeadById fault gen_random_uuid now may_delete).

(** What the listing returns when the store answers. *)
Lemma listing_answered (cid : string) (pg ps : Z) (filters : LeadFilterOptions)
      (w : World) :
  fault w (Select (listing_query cid pg ps filters)) = None ->
  fst (getLeadsByCampaign cid {| page := Some pg; pageSize := Some ps |} filters w) =
  Return {| pl_data :=
              map toListItem
                  (in_range ((pg - 1) * ps) ((pg - 1) * ps + ps - 1)
                            (order_desc (matching cid filters (leads_table w))));
            pl_total := length (matching cid filters (leads_table w));
            pl_page := pg;
            pl_pageSize := ps;
            pl_totalPages :=
              Math_ceil_div (Z.of_nat (length (matching cid filters (leads_table w)))) ps |}.
Proof.
  intros Hf. unfold getLeadsByCampaign, bind, exec.
  cbn [page pageSize]. fold (listing_conds cid filters).
  fold (listing_query cid pg ps filters). rewrite Hf. reflexivity.
Qed.

(** C7 (amended): with a page size of at least 1 and a store that answers,
    an item appears on some page of the listing exactly when it is the item
    of a lead of the table that belongs to the campaign and satisfies each
    supplied filter, a filter given as the empty string counting as
    omitted. *)
Theorem listing_filters (cid : string) (ps : Z) (filters : LeadFilterOptions)
        (w : World) :
  (1 <= ps)%Z ->
  (forall q, fault w (Select q) = None) ->
  forall it : LeadListItem,
    (exists pg r,
        (1 <= pg)%Z /\
        fst (getLeadsByCampaign cid {| page := Some pg; pageSize := Some ps |} filters w)
        = Return r /\
        In it (pl_data r))
    <->
    (exists l,
        In l (leads_table w) /\ toListItem l = it /\
        campaign_run_id l = cid /\ satisfies_nonempty filters l).
Proof.
  intros Hps Hf it. split.
  - intros (pg & r & _ & Hr & Hin).
    rewrite (listing_answered cid pg ps filters w (Hf _)) in Hr.
    injection Hr as <-. cbn [pl_data] in Hin.
    apply in_map_iff in Hin. destruct Hin as (l & Hit & Hin).
    apply in_range_incl in Hin.
    apply (Permutation_in _ (Permutation_sym (order_desc_perm _))) in Hin.
    apply filter_In in Hin. destruct Hin as [Htbl Hm].
    apply listing_conds_spec in Hm. exists l. tauto.
  - intros (l & Htbl & Hit & Hc & Hs).
    assert (Hin : In l (order_desc (matching cid filters (leads_table w)))).
    { apply (Permutation_in _ (order_desc_perm _)).
      apply filter_In. split; [exact Htbl|]. now apply listing_conds_spec. }
    destruct (in_some_page ps _ l Hps Hin) as (pg & Hpg & Hpage).
    exists pg. eexists. split; [exact Hpg|].
    split; [apply listing_answered, Hf|].
    cbn [pl_data]. rewrite <- Hit. now apply in_map.
Qed.

(** C8: for a page number and a page size of at least 1 and a store that
    answers, the listing returns the window of [pageSize] rows that starts
    at offset [(page - 1) * pageSize] of the matching leads in descending
    order of probability, hence at most [pageSize] items, with the number
    of matching leads as [total] and the ceiling of [total / pageSize] as
    [totalPages]; omitted options stand for page 1 and page size 25. *)
Theorem listing_pages (cid : string) (pg ps : Z) (filters : LeadFilterOptions)
        (w : World) :
  (1 <= pg)%Z -> (1 <= ps)%Z ->
  fault w (Select (listing_query cid pg ps filters)) = None ->
  exists r sorted,
    fst (getLeadsByCampaign cid {| page := Some pg; pageSize := Some ps |} filters w)
    = Return r /\
    Permutation (matching cid filters (leads_table w)) sorted /\
    Sorted desc sorted /\
    pl_data r =
      map toListItem
          (firstn (Z.to_nat ps) (skipn (Z.to_nat ((pg - 1) * ps)) sorted)) /\
    (Z.of_nat (length (pl_data r)) <= ps)%Z /\
    pl_total r = length (matching cid filters (leads_table w)) /\
    ((pl_totalPages r - 1) * ps < Z.of_nat (pl_total r) <= pl_totalPages r * ps)%Z /\
    pl_page r = pg /\ pl_pageSize r = ps /\
    getLeadsByCampaign cid {| page := None; pageSize := None |} filters
    = getLeadsByCampaign cid {| page := Some 1%Z; pageSize := Some 25%Z |} filters.
Proof.
  intros Hpg Hps Hf. eexists. exists (order_desc (matching cid filters (leads_table w))).
  split; [apply listing_answered, Hf|].
  cbn [pl_data pl_total pl_totalPages pl_page pl_pageSize].
  split; [apply order_desc_perm|]. split; [apply order_desc_sorted|].
  split.
  { unfold in_range.
    now replace ((pg - 1) * ps + ps - 1 - (pg - 1) * ps + 1)%Z with ps by lia. }
  split; [rewrite length_map; now apply in_range_length|].
  split; [reflexivity|]. split; [now apply Math_ceil_div_spec|].
  repeat split.
Qed.

(** C10: [getLeadById] returns null exactly when the store answers with
    error code PGRST116, throws for every other error of the store, and
    returns the row the store hands over; on a store that answers, a row
    that alone carries the id is returned as it is stored and an id that no
    row carries gives null.  The table is not changed. *)
Theorem getLeadById_cases (lid : string) (w : World) :
  let response := fst (exec (SelectSingle (lead_query lid)) w) in
  let result := fst (getLeadById lid w) in
  (result = Return None <->
   exists e, error response = Some e /\ code e = "PGRST116") /\
  (forall e, error response = Some e -> code e <> "PGRST116" ->
             result = Throw (String.append "Failed to fetch lead: " (message e))) /\
  (forall l, error response = None -> data response = Row l ->
             result = Return (Some l)) /\
  (fault w (SelectSingle (lead_query lid)) = None ->
   forall l, filter (fun x => String.eqb (id x) lid) (leads_table w) = [l] ->
             result = Return (Some l)) /\
  (fault w (SelectSingle (lead_query lid)) = None ->
   filter (fun x => String.eqb (id x) lid) (leads_table w) = [] ->
   result = Return None) /\
  leads_table (snd (getLeadById lid w)) = leads_table w.
Proof.
  cbv zeta. unfold getLeadById, bind. fold (lead_query lid).
  assert (Hq : forall tbl, fst (run_select (lead_query lid) tbl)
                           = filter (fun x => String.eqb (id x) lid) tbl).
  { intros tbl. cbn. apply filter_ext. intros x. cbn. apply andb_true_r. }
  unfold exec. rewrite Hq.
  destruct (fault w (SelectSingle (lead_query lid))) as [e|] eqn:Hf.
  - cbn [fst snd error data leads_table].
    destruct (String.eqb_spec (code e) "PGRST116") as [Hc|Hc]; cbn [ret fst snd leads_table].
    + repeat split; try discriminate; try reflexivity.
      * intros _. now exists e.
      * intros e' [= <-] Hne. contradiction.
    + repeat split; try discriminate; try reflexivity.
      * intros (e' & [= <-] & Hc'). contradiction.
      * now intros e' [= <-] _.
  - destruct (filter (fun x => String.eqb (id x) lid) (leads_table w)) as [|l [|l' rest]];
      cbn [fst snd error data leads_table code PGRST116 String.eqb Ascii.eqb Bool.eqb ret].
    + repeat split; try discriminate; try reflexivity.
      * intros _. now exists PGRST116.
      * intros e [= <-] Hne. now elim Hne.
    + repeat split; try discriminate; try reflexivity.
      * intros (e & He & _). discriminate He.
      * now intros l0 _ [= <-].
      * now intros _ l0 [= <-].
    + repeat split; try discriminate; try reflexivity.
      * intros _. now exists PGRST116.
      * intros e [= <-] Hne. now elim Hne.
Qed.

End ReadFacts.

(** ** Concrete listings and lookups *)

Lemma listing_filters_witness :
  exists pg r,
    (1 <= pg)%Z /\
    fst (getLeadsByCampaign never_refuses uuid_of epoch unrestricted "c1"
           {| page := Some pg; pageSize := Some 25%Z |} high_risk_only four_lead_table)
    = Return r /\
    In (toListItem technician_lead) (pl_data r).
Proof.
  apply (proj2 (listing_filters never_refuses uuid_of epoch unrestricted "c1" 25 high_risk_only
                                four_lead_table ltac:(lia) (fun _ => Logic.eq_refl)
                                (toListItem technician_lead))).
  exists technician_lead. split; [left; reflexivity|]. split; [reflexivity|].
  split; [reflexivity|]. unfold satisfies_nonempty, high_risk_only. cbn.
  repeat split; try discriminate.
  - now intros t [= <-].
  - intros v [= <-]. discriminate.
Defined.

Lemma listing_pages_witness :
  exists r,
    fst (getLeadsByCampaign never_refuses uuid_of epoch unrestricted "c1"
           {| page := Some 1%Z; pageSize := Some 2%Z |} no_filters four_lead_table)
    = Return r /\
    pl_total r = 3 /\ pl_totalPages r = 2%Z /\ (Z.of_nat (length (pl_data r)) <= 2)%Z.
Proof.
  destruct (listing_pages never_refuses uuid_of epoch unrestricted "c1" 1 2 no_filters four_lead_table)
    as (r & sorted & Hr & _ & _ & _ & Hlen & Htotal & Hpages & _); [lia|lia|reflexivity|].
  exists r. split; [exact Hr|].
  assert (E : pl_total r = 3) by (rewrite Htotal; reflexivity).
  rewrite E in Hpages. repeat split; [exact E|lia|exact Hlen].
Defined.

Lemma getLeadById_cases_witness :
  fst (getLeadById never_refuses uuid_of epoch unrestricted "lead-0" four_lead_table)
  = Return (Some technician_lead).
Proof.
  destruct (getLeadById_cases never_refuses uuid_of epoch unrestricted "lead-0" four_lead_table)
    as (_ & _ & _ & Hrow & _).
  apply Hrow; reflexivity.
Defined.

(** C7 as stated fails: with the job filter supplied as the empty string the
    listing of campaign ["c1"] shows the technician, whose job is not the
    empty string. *)
Lemma listing_blank_job_not_applied :
  exists r,
    fst (getLeadsByCampaign never_refuses uuid_of epoch unrestricted "c1" default_options blank_job
           four_lead_table) = Return r /\
    In technician_lead (leads_table four_lead_table) /\
    In (toListItem technician_lead) (pl_data r) /\
    job technician_lead = "technician" /\
    ~ satisfies blank_job technician_lead.
Proof.
  eexists. split; [vm_compute; reflexivity|].
  split; [left; reflexivity|]. split; [left; reflexivity|]. split; [reflexivity|].
  intros (_ & _ & _ & Hjob & _). specialize (Hjob "" Logic.eq_refl). discriminate Hjob.
Qed.

(** ** Row counts of an ingestion run *)

Section IngestFacts.

Variable fault : World -> Request -> option PostgrestError.
Variable gen_random_uuid : nat -> string.
Variable now : World -> string.
Variable may_delete : Lead -> bool.

Local Abbreviation exec := (exec fault gen_random_uuid now may_delete).
Local Abbreviation bulk_loop := (bulk_loop fault gen_random_uuid now may_delete).
Local Abbreviation bulkInsertLeads := (bulkInsertLeads fault gen_random_uuid now may_delete).
Local Abbreviation ingest := (ingest fault gen_random_uuid now may_delete).

(** However the store behaves, a bulk insert adds at most its leads. *)
Lemma bulk_loop_table_growth (leads : list CreateLeadPayload) :
  forall fuel i cnt w,
    length (leads_table w)
    <= length (leads_table (snd (bulk_loop fuel leads i cnt w)))
    <= length (leads_table w) + (length leads - i).
Proof.
  induction fuel as [|fuel IH]; intros i cnt w; cbn [bulk_loop].
  - cbn. lia.
  - destruct (Nat.ltb_spec i (length leads)) as [Hlt|Hge]; [|cbn; lia].
    unfold bind.
    set (batch := map toLeadInsert (slice leads i (i + BATCH_SIZE))).
    assert (Hb : length batch <= length leads - i).
    { subst batch. rewrite length_map, slice_length. lia. }
    assert (Hb' : length leads - (i + BATCH_SIZE) + length batch <= length leads - i).
    { subst batch. rewrite length_map, slice_length. lia. }
    destruct (fault w (Insert batch)) as [e|] eqn:Hf.
    + rewrite (exec_refused fault gen_random_uuid now may_delete _ _ _ Hf). cbn. lia.
    + rewrite (exec_insert_accepted fault gen_random_uuid now may_delete _ _ Hf). cbn [error].
      specialize (IH (i + BATCH_SIZE) (cnt + length batch)
                     (committed gen_random_uuid now w batch)).
      cbn [committed leads_table] in IH.
      rewrite length_app, stored_batch_length in IH. lia.
Qed.

(** C9: every version of the campaign record an ingestion run persists has
    non-negative row counts with [processed_rows + dropped_rows <=
    total_rows], and the two add up to [total_rows] once the status is
    [completed] or [failed]. *)
Theorem ingest_row_counts (cid nm file : string) (creator : option string)
        (v : Validation) (s : Scoring) (w : World) (c : CampaignRun) :
  In c (fst (ingest cid nm file creator v s w)) ->
  (0 <= total_rows c)%Z /\ (0 <= processed_rows c)%Z /\ (0 <= dropped_rows c)%Z /\
  (processed_rows c + dropped_rows c <= total_rows c)%Z /\
  (status c <> processing ->
   (processed_rows c + dropped_rows c = total_rows c)%Z).
Proof.
  unfold ingest. destruct v as [reason|rows]; [intros []|].
  destruct s as [msg|msg|leads invalid avg].
  - cbn [fst]. intros [<-|[<-|[]]];
      unfold failed_campaign, created_campaign; cbn;
      repeat split; try lia; intros H; now elim H.
  - cbn [fst]. intros [<-|[<-|[]]];
      unfold failed_campaign, created_campaign; cbn;
      repeat split; try lia; intros H; now elim H.
  - destruct (Nat.eqb_spec (length leads + length invalid) rows) as [E|E].
    + pose proof (bulk_loop_table_growth leads (S (length leads)) 0 0 w) as G.
      unfold bulkInsertLeads.
      destruct (bulk_loop (S (length leads)) leads 0 0 w) as [r w'].
      cbn [snd] in G.
      destruct r as [[n|msg]|]; cbn [fst].
      * intros [<-|[<-|[]]];
          unfold completed_campaign, created_campaign; cbn;
          repeat split; try lia; intros H; now elim H.
      * intros [<-|[<-|[]]];
          unfold failed_campaign, created_campaign; cbn;
          repeat split; try lia; intros H; now elim H.
      * intros [<-|[]]. unfold created_campaign; cbn.
        repeat split; try lia. intros H; now elim H.
    + cbn [fst]. intros [<-|[<-|[]]];
        unfold failed_campaign, created_campaign; cbn;
        repeat split; try lia; intros H; now elim H.
Qed.

End IngestFacts.

Lemma ingest_row_counts_witness :
  exists c,
    nth_error (fst failing_ingest) 1 = Some c /\
    status c = failed /\
    total_rows c = 502%Z /\ processed_rows c = 500%Z /\ dropped_rows c = 2%Z /\
    (processed_rows c + dropped_rows c = total_rows c)%Z.
Proof.
  eexists. split; [vm_compute; reflexivity|].
  split; [reflexivity|]. split; [reflexivity|]. split; [reflexivity|].
  split; [reflexivity|].
  apply (ingest_row_counts refuses_short_batches uuid_of epoch unrestricted "c1" "May campaign"
                           "may.csv" None (ValidTable 502)
                           (Scored (sample_leads 501) [(17%Z, "age out of range")]
                                   (Some (1 # 2)))
                           empty_world).
  - vm_compute. right. left. reflexivity.
  - cbn. discriminate.
Defined.

(** * Further properties of the lead operations *)

(** ** Bulk insert under any behaviour of the store *)

Section BulkOutcome.

Variable fault : World -> Request -> option PostgrestError.
Variable gen_random_uuid : nat -> string.
Variable now : World -> string.
Variable may_delete : Lead -> bool.

Local Abbreviation bulkInsertLeads := (bulkInsertLeads fault gen_random_uuid now may_delete).
Local Abbreviation world_after := (world_after gen_random_uuid now).
Local Abbreviation first_refusal := (first_refusal fault gen_random_uuid now).
Local Abbreviation no_refusal := (no_refusal fault gen_random_uuid now).

(** Among the first [m] chunks either none is refused or one is the first. *)
Lemma refusal_search (leads : list CreateLeadPayload) (w : World) (m : nat) :
  (forall j, j < m ->
             fault (world_after leads w j) (Insert (chunk leads j)) = None) \/
  (exists k e, k < m /\
               (forall j, j < k ->
                          fault (world_after leads w j) (Insert (chunk leads j)) = None) /\
               fault (world_after leads w k) (Insert (chunk leads k)) = Some e).
Proof.
  induction m as [|m [Hnone|(k & e & Hk & Hbefore & Hat)]].
  - left. intros j Hj. lia.
  - destruct (fault (world_after leads w m) (Insert (chunk leads m))) as [e|] eqn:Hm.
    + right. exists m, e. repeat split; [lia|intros j Hj; now apply Hnone|exact Hm].
    + left. intros j Hj. destruct (Nat.eq_dec j m) as [->|Hne]; [exact Hm|].
      apply Hnone. lia.
  - right. exists k, e. repeat split; [lia|exact Hbefore|exact Hat].
Qed.

(** X1: whatever the store does, a bulk insert ends in one of two ways.  It
    returns the number of leads, with every lead stored and one insert per
    chunk; or it throws the error of the first refused chunk [k], with
    exactly the leads of the chunks before [k] stored and no insert issued
    after the refused one.  It never runs out of iterations, issues no other
    request and stores no part of a chunk. *)
Theorem bulkInsertLeads_outcome (leads : list CreateLeadPayload) (w : World) :
  let run := bulkInsertLeads leads w in
  exists k,
    (fst run = Some (Return (length leads)) /\
     k = ceil_div (length leads) BATCH_SIZE /\
     map lead_payload (leads_table (snd run))
     = map lead_payload (leads_table w) ++ leads /\
     journal (snd run)
     = journal w ++ map (fun j => Insert (chunk leads j)) (seq 0 k))
    \/
    (exists e,
        fst run = Some (Throw (String.append "Failed to insert leads: " (message e))) /\
        k * BATCH_SIZE < length leads /\
        fault (world_after leads w k) (Insert (chunk leads k)) = Some e /\
        map lead_payload (leads_table (snd run))
        = map lead_payload (leads_table w) ++ firstn (k * BATCH_SIZE) leads /\
        journal (snd run)
        = journal w ++ map (fun j => Insert (chunk leads j)) (seq 0 (S k))).
Proof.
  cbv zeta. pose proof (ceil_div_bounds (length leads)) as B.
  destruct (refusal_search leads w (ceil_div (length leads) BATCH_SIZE))
    as [Hnone|(k & e & Hk & Hbefore & Hat)].
  - assert (Hok : no_refusal leads w).
    { intros j Hj. apply Hnone. unfold BATCH_SIZE in *. nia. }
    assert (Hrun : bulkInsertLeads leads w
                   = (Some (Return (length leads)),
                      world_after leads w (ceil_div (length leads) BATCH_SIZE))).
    { pose proof (bulk_loop_accepted fault gen_random_uuid now may_delete leads w Hok
                                     (S (length leads)) 0 0) as H.
      change (0 * BATCH_SIZE) with 0 in H. cbn [world_after Nat.add] in H.
      rewrite Nat.sub_0_r in H. apply H; unfold BATCH_SIZE; lia. }
    exists (ceil_div (length leads) BATCH_SIZE).
    rewrite Hrun. cbn [fst snd]. left.
    split; [reflexivity|]. split; [reflexivity|]. split.
    + rewrite (world_after_payloads gen_random_uuid now). f_equal.
      apply firstn_all2. lia.
    + apply (world_after_journal gen_random_uuid now).
  - assert (Hlt : k * BATCH_SIZE < length leads) by (unfold BATCH_SIZE in *; nia).
    assert (Hk' : first_refusal leads w k e) by (repeat split; assumption).
    assert (Hrun : bulkInsertLeads leads w
                   = (Some (Throw (String.append "Failed to insert leads: " (message e))),
                      refused (world_after leads w k) (Insert (chunk leads k)))).
    { apply (bulk_loop_refused fault gen_random_uuid now may_delete leads w k e Hk'
                               (S (length leads)) 0 0); [unfold BATCH_SIZE; lia|lia]. }
    exists k. rewrite Hrun. cbn [fst snd]. right. exists e.
    split; [reflexivity|]. split; [exact Hlt|]. split; [exact Hat|].
    cbn [refused leads_table journal]. split.
    + apply (world_after_payloads gen_random_uuid now).
    + rewrite (world_after_journal gen_random_uuid now), seq_S, map_app.
      now rewrite <- app_assoc.
Qed.

End BulkOutcome.

(** ** Deleting and re-inserting the leads of a campaign *)

Lemma leads_of_payloads (cid : string) (tbl : list Lead) :
  map lead_payload (leads_of cid tbl) = payloads_of cid (map lead_payload tbl).
Proof.
  induction tbl as [|l tbl IH]; [reflexivity|].
  cbn [leads_of payloads_of filter map lead_payload p_campaign_run_id].
  destruct (String.eqb (campaign_run_id l) cid); cbn [map]; [f_equal|]; exact IH.
Qed.

Lemma leads_of_app (cid : string) (a b : list Lead) :
  leads_of cid (a ++ b) = leads_of cid a ++ leads_of cid b.
Proof. apply filter_app. Qed.

Lemma payloads_of_all (cid : string) (leads : list CreateLeadPayload) :
  (forall p, In p leads -> p_campaign_run_id p = cid) ->
  payloads_of cid leads = leads.
Proof.
  induction leads as [|p leads IH]; intros Hall; [reflexivity|].
  cbn [payloads_of filter]. rewrite (Hall p (or_introl Logic.eq_refl)), String.eqb_refl.
  f_equal. apply IH. intros q Hq. apply Hall. now right.
Qed.

Lemma payloads_of_none (cid other : string) (leads : list CreateLeadPayload) :
  other <> cid ->
  (forall p, In p leads -> p_campaign_run_id p = cid) ->
  payloads_of other leads = [].
Proof.
  intros Hne. induction leads as [|p leads IH]; intros Hall; [reflexivity|].
  cbn [payloads_of filter]. rewrite (Hall p (or_introl Logic.eq_refl)).
  destruct (String.eqb_spec cid other) as [E|_]; [now elim Hne|].
  apply IH. intros q Hq. apply Hall. now right.
Qed.

Lemma leads_of_deleted (cid : string) (may_delete : Lead -> bool) (tbl : list Lead) :
  (forall l, In l tbl -> campaign_run_id l = cid -> may_delete l = true) ->
  leads_of cid
    (filter (fun l => negb (matches [eq_text col_campaign_run_id cid] l && may_delete l)) tbl)
  = [].
Proof.
  induction tbl as [|l tbl IH]; intros Hall; [reflexivity|].
  assert (Hrest : forall x, In x tbl -> campaign_run_id x = cid -> may_delete x = true)
    by (intros x Hx; apply Hall; now right).
  cbn [filter matches forallb holds text_of]. rewrite andb_true_r.
  destruct (String.eqb_spec (campaign_run_id l) cid) as [E|E].
  - rewrite (Hall l (or_introl Logic.eq_refl) E). cbn [andb negb]. now apply IH.
  - cbn [andb negb leads_of filter].
    destruct (String.eqb_spec (campaign_run_id l) cid) as [E'|_]; [contradiction|].
    now apply IH.
Qed.

Lemma leads_of_kept (cid other : string) (may_delete : Lead -> bool) (tbl : list Lead) :
  other <> cid ->
  leads_of other
    (filter (fun l => negb (matches [eq_text col_campaign_run_id cid] l && may_delete l)) tbl)
  = leads_of other tbl.
Proof.
  intros Hne. induction tbl as [|l tbl IH]; [reflexivity|].
  cbn [filter matches forallb holds text_of]. rewrite andb_true_r.
  destruct (String.eqb_spec (campaign_run_id l) cid) as [E|E].
  - destruct (may_delete l); cbn [andb negb leads_of filter];
      (destruct (String.eqb_spec (campaign_run_id l) other) as [E'|_]; [congruence|]);
      exact IH.
  - cbn [andb negb leads_of filter]. destruct (String.eqb (campaign_run_id l) other);
      [f_equal|]; exact IH.
Qed.

Lemma nothing_deleted (cid : string) (may_delete : Lead -> bool) (tbl : list Lead) :
  (forall l, In l tbl -> campaign_run_id l = cid -> may_delete l = false) ->
  filter (fun l => negb (matches [eq_text col_campaign_run_id cid] l && may_delete l)) tbl
  = tbl.
Proof.
  induction tbl as [|l tbl IH]; intros Hall; [reflexivity|].
  assert (Hrest : forall x, In x tbl -> campaign_run_id x = cid -> may_delete x = false)
    by (intros x Hx; apply Hall; now right).
  cbn [filter matches forallb holds text_of]. rewrite andb_true_r.
  destruct (String.eqb_spec (campaign_run_id l) cid) as [E|E].
  - rewrite (Hall l (or_introl Logic.eq_refl) E). cbn [andb negb]. f_equal. now apply IH.
  - cbn [andb negb]. f_equal. now apply IH.
Qed.

Section Compositions.

Variable fault : World -> Request -> option PostgrestError.
Variable gen_random_uuid : nat -> string.
Variable now : World -> string.
Variable may_delete : Lead -> bool.

Local Abbreviation bulkInsertLeads := (bulkInsertLeads fault gen_random_uuid now may_delete).
Local Abbreviation deleteLeadsByCampaign := (deleteLeadsByCampaign fault gen_random_uuid now may_delete).
Local Abbreviation getLeadStatsByCampaign := (getLeadStatsByCampaign fault gen_random_uuid now may_delete).
Local Abbreviation world_after := (world_after gen_random_uuid now).
Local Abbreviation no_refusal := (no_refusal fault gen_random_uuid now).

Lemma bulkInsertLeads_accepted (leads : list CreateLeadPayload) (w : World) :
  no_refusal leads w ->
  bulkInsertLeads leads w
  = (Some (Return (length leads)),
     world_after leads w (ceil_div (length leads) BATCH_SIZE)).
Proof.
  intros Hok.
  pose proof (bulk_loop_accepted fault gen_random_uuid now may_delete leads w Hok
                                 (S (length leads)) 0 0) as H.
  change (0 * BATCH_SIZE) with 0 in H. cbn [world_after Nat.add] in H.
  rewrite Nat.sub_0_r in H. apply H; unfold BATCH_SIZE; lia.
Qed.

(** The table after accepted chunks is the old table followed by new rows. *)
Lemma world_after_extends (leads : list CreateLeadPayload) (w : World) (j : nat) :
  exists added,
    leads_table (world_after leads w j) = leads_table w ++ added /\
    map lead_payload added = firstn (j * BATCH_SIZE) leads.
Proof.
  induction j as [|j (added & Ht & Hp)].
  - exists []. cbn. now rewrite app_nil_r.
  - exists (added ++ stored_batch gen_random_uuid now (world_after leads w j)
                                  (serial (world_after leads w j)) (chunk leads j)).
    cbn [world_after committed leads_table]. rewrite Ht, <- app_assoc.
    split; [reflexivity|].
    rewrite map_app, Hp, (stored_batch_payload gen_random_uuid now).
    unfold chunk. rewrite map_toLeadInsert, firstn_slice. f_equal. lia.
Qed.

Lemma bulkInsertLeads_extends (leads : list CreateLeadPayload) (w : World) :
  no_refusal leads w ->
  exists added,
    leads_table (snd (bulkInsertLeads leads w)) = leads_table w ++ added /\
    map lead_payload added = leads.
Proof.
  intros Hok. rewrite (bulkInsertLeads_accepted leads w Hok). cbn [snd].
  destruct (world_after_extends leads w (ceil_div (length leads) BATCH_SIZE))
    as (added & Ht & Hp).
  exists added. split; [exact Ht|]. rewrite Hp. apply firstn_all2.
  pose proof (ceil_div_bounds (length leads)). lia.
Qed.

Lemma deleteLeadsByCampaign_accepted (cid : string) (w : World) :
  fault w (delete_request cid) = None ->
  deleteLeadsByCampaign cid w
  = (Return tt,
     {| leads_table :=
          filter (fun l => negb (matches [eq_text col_campaign_run_id cid] l && may_delete l))
                 (leads_table w);
        serial := serial w;
        journal := journal w ++ [delete_request cid] |}).
Proof.
  intros Hf. unfold deleteLeadsByCampaign, bind, exec. fold (delete_request cid).
  rewrite Hf. reflexivity.
Qed.

Lemma stats_total (cid : string) (w : World) :
  fault w (Select (stats_query cid)) = None ->
  exists s,
    fst (getLeadStatsByCampaign cid w) = Return s /\
    total s = length (leads_of cid (leads_table w)).
Proof.
  intros Hf. rewrite (stats_answered fault gen_random_uuid now may_delete cid w Hf). cbv zeta.
  destruct (Nat.eqb_spec (length (leads_of cid (leads_table w))) 0) as [E|E];
    eexists; (split; [reflexivity|]); cbn [total]; congruence.
Qed.

(** X2: a delete the store accepts removes exactly the leads of the
    campaign that the row-level [DELETE] policy lets the session delete and
    keeps every other row, in order: the campaign is emptied when the policy
    covers all its leads, and nothing is removed, still without an error,
    when it covers none.  A refused delete throws ["Failed to delete
    leads: "] with the store's message and leaves the table as it was. *)
Theorem deleteLeadsByCampaign_effect (cid : string) (w : World) :
  let run := deleteLeadsByCampaign cid w in
  match fault w (delete_request cid) with
  | None =>
      fst run = Return tt /\
      (forall l, In l (leads_table (snd run)) <->
                 In l (leads_table w) /\
                 (campaign_run_id l <> cid \/ may_delete l = false)) /\
      (forall other, other <> cid ->
                     leads_of other (leads_table (snd run))
                     = leads_of other (leads_table w)) /\
      ((forall l, In l (leads_table w) -> campaign_run_id l = cid ->
                  may_delete l = true) ->
       leads_of cid (leads_table (snd run)) = []) /\
      ((forall l, In l (leads_table w) -> campaign_run_id l = cid ->
                  may_delete l = false) ->
       leads_table (snd run) = leads_table w)
  | Some e =>
      fst run = Throw (String.append "Failed to delete leads: " (message e)) /\
      leads_table (snd run) = leads_table w
  end.
Proof.
  cbv zeta. destruct (fault w (delete_request cid)) as [e|] eqn:Hf.
  - unfold deleteLeadsByCampaign, bind. fold (delete_request cid).
    rewrite (exec_refused fault gen_random_uuid now may_delete _ _ _ Hf).
    split; reflexivity.
  - rewrite (deleteLeadsByCampaign_accepted cid w Hf). cbn [fst snd leads_table].
    split; [reflexivity|]. split.
    { intros l. rewrite filter_In. cbn [matches forallb holds text_of].
      rewrite andb_true_r, negb_true_iff, andb_false_iff, String.eqb_neq.
      reflexivity. }
    split; [intros other Hne; now apply leads_of_kept|].
    split; [apply leads_of_deleted|apply nothing_deleted].
Qed.

(** X3: after an accepted delete by a session that the [DELETE] policy lets
    delete the leads of the campaign, the statistics of the campaign are
    those of an empty campaign: all counts zero and the mean null. *)
Theorem stats_after_delete (cid : string) (w : World) :
  (forall l, In l (leads_table w) -> campaign_run_id l = cid -> may_delete l = true) ->
  fault w (delete_request cid) = None ->
  fault (snd (deleteLeadsByCampaign cid w)) (Select (stats_query cid)) = None ->
  fst (getLeadStatsByCampaign cid (snd (deleteLeadsByCampaign cid w)))
  = Return {| total := 0; highRisk := 0; mediumRisk := 0; lowRisk := 0;
              avgProbability := None |}.
Proof.
  intros Hmay Hd Hs.
  rewrite (stats_answered fault gen_random_uuid now may_delete cid _ Hs).
  rewrite (deleteLeadsByCampaign_accepted cid w Hd). cbn [snd leads_table].
  rewrite leads_of_deleted by exact Hmay. reflexivity.
Qed.

(** X4: after a bulk insert the store accepted, the [total] of a campaign's
    statistics is its number of leads before the insert plus the number of
    inserted leads that carry the campaign's id. *)
Theorem stats_after_bulk_insert (cid : string) (leads : list CreateLeadPayload)
        (w : World) :
  no_refusal leads w ->
  fault (snd (bulkInsertLeads leads w)) (Select (stats_query cid)) = None ->
  exists s,
    fst (getLeadStatsByCampaign cid (snd (bulkInsertLeads leads w))) = Return s /\
    total s = length (leads_of cid (leads_table w)) + length (payloads_of cid leads).
Proof.
  intros Hok Hs. destruct (stats_total cid _ Hs) as (s & Hrun & Htotal).
  exists s. split; [exact Hrun|]. rewrite Htotal.
  destruct (bulkInsertLeads_extends leads w Hok) as (added & Ht & Hp).
  rewrite Ht, leads_of_app, length_app. f_equal.
  rewrite <- (length_map lead_payload), leads_of_payloads, Hp. reflexivity.
Qed.

(** X5: re-running a campaign.  When the leads of a campaign are deleted by
    a session that the [DELETE] policy lets delete them, and leads of that
    same campaign are bulk-inserted, both accepted by the store, the campaign
    holds exactly the inserted leads, in their order, and the leads of every
    other campaign are as before. *)
Theorem delete_then_bulk_insert (cid : string) (leads : list CreateLeadPayload)
        (w : World) :
  (forall l, In l (leads_table w) -> campaign_run_id l = cid -> may_delete l = true) ->
  (forall p, In p leads -> p_campaign_run_id p = cid) ->
  fault w (delete_request cid) = None ->
  no_refusal leads (snd (deleteLeadsByCampaign cid w)) ->
  let w' := snd (bulkInsertLeads leads (snd (deleteLeadsByCampaign cid w))) in
  map lead_payload (leads_of cid (leads_table w')) = leads /\
  (forall other, other <> cid ->
                 leads_of other (leads_table w') = leads_of other (leads_table w)).
Proof.
  intros Hmay Hall Hd Hok. cbv zeta.
  destruct (bulkInsertLeads_extends leads _ Hok) as (added & Ht & Hp).
  rewrite Ht. rewrite (deleteLeadsByCampaign_accepted cid w Hd). cbn [snd leads_table].
  split.
  - rewrite leads_of_app, leads_of_deleted by exact Hmay. cbn [app].
    rewrite leads_of_payloads, Hp. now apply payloads_of_all.
  - intros other Hne. rewrite leads_of_app, leads_of_kept by exact Hne.
    assert (E : leads_of other added = []).
    { apply (map_eq_nil lead_payload). rewrite leads_of_payloads, Hp.
      now apply (payloads_of_none cid). }
    rewrite E. apply app_nil_r.
Qed.

End Compositions.

(** X18: under the [DELETE] policy of the migration, a delete the store
    accepts returns normally in every case.  For a session whose user is
    neither an administrator nor the creator of a campaign with the given
    id, it leaves the table as it was; for an administrator, or for the
    creator of a campaign with that id, it removes every lead of the
    campaign. *)
Theorem deleteLeadsByCampaign_under_policy
        (fault : World -> Request -> option PostgrestError)
        (gen_random_uuid : nat -> string) (now : World -> string)
        (uid : option string) (users : list User) (campaigns : list CampaignRun)
        (cid : string) (w : World) :
  fault w (delete_request cid) = None ->
  let run := deleteLeadsByCampaign fault gen_random_uuid now
                                   (leads_delete_policy uid users campaigns) cid w in
  fst run = Return tt /\
  (is_admin uid users = false ->
   (forall c u, In c campaigns -> c_id c = cid -> uid = Some u ->
                created_by c <> Some u) ->
   leads_table (snd run) = leads_table w) /\
  ((exists c, In c campaigns /\ c_id c = cid /\
              (is_admin uid users = true \/
               exists u, uid = Some u /\ created_by c = Some u)) ->
   leads_of cid (leads_table (snd run)) = []).
Proof.
  intros Hf. cbv zeta.
  rewrite (deleteLeadsByCampaign_accepted fault gen_random_uuid now _ cid w Hf).
  cbn [fst snd leads_table]. split; [reflexivity|]. split.
  - intros Hadmin Hnot. apply nothing_deleted. intros l _ Hl.
    unfold leads_delete_policy. rewrite Hadmin.
    destruct (existsb _ campaigns) eqn:E; [|reflexivity]. exfalso.
    apply existsb_exists in E. destruct E as (c & Hc & Hcond).
    apply andb_true_iff in Hcond. destruct Hcond as [Hid Hown].
    apply String.eqb_eq in Hid. rewrite orb_false_r in Hown.
    destruct (created_by c) as [creator|] eqn:Hcb; [|discriminate].
    destruct uid as [u|]; [|discriminate].
    apply String.eqb_eq in Hown. subst creator.
    apply (Hnot c u Hc); [congruence|reflexivity|exact Hcb].
  - intros (c & Hc & Hid & Hown). apply leads_of_deleted. intros l _ Hl.
    unfold leads_delete_policy. apply existsb_exists. exists c. split; [exact Hc|].
    rewrite Hid, Hl, String.eqb_refl. cbn [andb].
    destruct Hown as [Hadmin|(u & -> & ->)].
    + rewrite Hadmin. apply orb_true_r.
    + now rewrite String.eqb_refl.
Qed.

Lemma deleteLeadsByCampaign_under_policy_witness :
  deleteLeadsByCampaign never_refuses uuid_of epoch
    (leads_delete_policy (Some "u-1") [analyst; administrator] [campaign_of (Some "u-2")])
    "c1" four_lead_table
  = (Return tt,
     {| leads_table := leads_table four_lead_table; serial := serial four_lead_table;
        journal := [delete_request "c1"] |}) /\
  leads_of "c1"
    (leads_table
       (snd (deleteLeadsByCampaign never_refuses uuid_of epoch
               (leads_delete_policy (Some "u-2") [analyst; administrator]
                                    [campaign_of (Some "u-2")])
               "c1" four_lead_table)))
  = [].
Proof.
  split.
  - destruct (deleteLeadsByCampaign_under_policy
                never_refuses uuid_of epoch (Some "u-1") [analyst; administrator]
                [campaign_of (Some "u-2")] "c1" four_lead_table Logic.eq_refl)
      as (Hret & Hsame & _).
    assert (Ht : leads_table
                   (snd (deleteLeadsByCampaign never_refuses uuid_of epoch
                           (leads_delete_policy (Some "u-1") [analyst; administrator]
                                                [campaign_of (Some "u-2")])
                           "c1" four_lead_table))
                 = leads_table four_lead_table).
    { apply Hsame; [reflexivity|].
      intros c u [<-|[]] _ [= <-]. cbn. discriminate. }
    rewrite (deleteLeadsByCampaign_accepted never_refuses uuid_of epoch _ "c1"
                                            four_lead_table Logic.eq_refl) in *.
    cbn [snd leads_table] in Ht. rewrite Ht. reflexivity.
  - apply (deleteLeadsByCampaign_under_policy
             never_refuses uuid_of epoch (Some "u-2") [analyst; administrator]
             [campaign_of (Some "u-2")] "c1" four_lead_table Logic.eq_refl).
    exists (campaign_of (Some "u-2")). split; [left; reflexivity|].
    split; [reflexivity|]. left. reflexivity.
Defined.

Lemma stats_after_delete_witness :
  fst (getLeadStatsByCampaign never_refuses uuid_of epoch unrestricted "c1"
         (snd (deleteLeadsByCampaign never_refuses uuid_of epoch unrestricted "c1" four_lead_table)))
  = Return {| total := 0; highRisk := 0; mediumRisk := 0; lowRisk := 0;
              avgProbability := None |}.
Proof.
  apply (stats_after_delete never_refuses uuid_of epoch unrestricted "c1" four_lead_table);
    [intros l _ _; reflexivity|reflexivity|reflexivity].
Defined.

Lemma stats_after_bulk_insert_witness :
  exists s,
    fst (getLeadStatsByCampaign never_refuses uuid_of epoch unrestricted "c1"
           (snd (bulkInsertLeads never_refuses uuid_of epoch unrestricted rescored_leads
                                 four_lead_table))) = Return s /\
    total s = 6.
Proof.
  destruct (stats_after_bulk_insert never_refuses uuid_of epoch unrestricted "c1" rescored_leads
                                    four_lead_table) as (s & Hs & Ht).
  - intros j _. reflexivity.
  - reflexivity.
  - exists s. split; [exact Hs|]. rewrite Ht. reflexivity.
Defined.

Lemma delete_then_bulk_insert_witness :
  map lead_payload
      (leads_of "c1"
         (leads_table
            (snd (bulkInsertLeads never_refuses uuid_of epoch unrestricted rescored_leads
                    (snd (deleteLeadsByCampaign never_refuses uuid_of epoch unrestricted "c1"
                            four_lead_table))))))
  = rescored_leads.
Proof.
  apply (delete_then_bulk_insert never_refuses uuid_of epoch unrestricted "c1" rescored_leads
                                 four_lead_table).
  - intros l _ _. reflexivity.
  - intros p Hp. cbn in Hp. destruct Hp as [<-|[<-|[<-|[]]]]; reflexivity.
  - reflexivity.
  - intros j _. reflexivity.
Defined.

(** ** Distinct values for the filter dropdowns *)

Lemma new_Set_acc (values seen : list string) :
  NoDup seen ->
  let result :=
    fold_left (fun seen v => if existsb (String.eqb v) seen then seen else seen ++ [v])
              values seen in
  NoDup result /\ (forall x, In x result <-> In x seen \/ In x values).
Proof.
  revert seen. induction values as [|v values IH]; intros seen Hseen; cbn [fold_left].
  - split; [exact Hseen|]. intros x. cbn. tauto.
  - destruct (existsb (String.eqb v) seen) eqn:E.
    + destruct (IH seen Hseen) as [Hnd Hin]. split; [exact Hnd|].
      intros x. rewrite Hin. cbn [In].
      apply existsb_exists in E. destruct E as (y & Hy & Hvy).
      apply String.eqb_eq in Hvy. subst y.
      split; [tauto|]. intros [H|[<-|H]]; tauto.
    + assert (Hv : ~ In v seen).
      { intros Hv. assert (T : existsb (String.eqb v) seen = true).
        { apply existsb_exists. exists v. split; [exact Hv|apply String.eqb_refl]. }
        congruence. }
      assert (Hnd' : NoDup (seen ++ [v])).
      { apply NoDup_app; [exact Hseen|repeat constructor; intros []|].
        intros x Hx [<-|[]]. contradiction. }
      destruct (IH (seen ++ [v]) Hnd') as [Hnd Hin]. split; [exact Hnd|].
      intros x. rewrite Hin, in_app_iff. cbn [In]. tauto.
Qed.

Lemma new_Set_spec (values : list string) :
  NoDup (new_Set values) /\ (forall x, In x (new_Set values) <-> In x values).
Proof.
  destruct (new_Set_acc values [] (NoDup_nil _)) as [Hnd Hin].
  split; [exact Hnd|]. intros x. unfold new_Set. rewrite Hin. cbn. tauto.
Qed.

Lemma sort_insert_perm (x : string) (l : list string) :
  Permutation (x :: l) (sort_insert x l).
Proof.
  induction l as [|y t IH]; cbn [sort_insert]; [reflexivity|].
  destruct (String.leb x y); [reflexivity|].
  rewrite perm_swap. now apply perm_skip.
Qed.

Lemma Array_sort_perm (l : list string) : Permutation l (Array_sort l).
Proof.
  induction l as [|x l IH]; cbn [Array_sort fold_right]; [constructor|].
  fold (Array_sort l). rewrite <- sort_insert_perm. now apply perm_skip.
Qed.

Lemma sort_insert_sorted (x : string) (l : list string) :
  Sorted ascending l -> Sorted ascending (sort_insert x l).
Proof.
  induction 1 as [|y t Ht IH Hy]; cbn [sort_insert].
  - repeat constructor.
  - destruct (String.leb x y) eqn:E.
    + repeat constructor; assumption.
    + assert (Hyx : ascending y x).
      { destruct (String.leb_total x y) as [H|H]; [congruence|exact H]. }
      constructor; [exact IH|].
      destruct t as [|z t']; cbn [sort_insert]; [now constructor|].
      destruct (String.leb x z); constructor; [exact Hyx|now inversion Hy].
Qed.

Lemma Array_sort_sorted (l : list string) : Sorted ascending (Array_sort l).
Proof.
  induction l as [|x l IH]; cbn [Array_sort fold_right]; [constructor|].
  now apply sort_insert_sorted.
Qed.

(** The sorted distinct values of a column: ascending, without duplicates,
    with the same members as the column. *)
Lemma sorted_distinct_spec (values : list string) :
  Sorted ascending (Array_sort (new_Set values)) /\
  NoDup (Array_sort (new_Set values)) /\
  (forall x, In x (Array_sort (new_Set values)) <-> In x values).
Proof.
  destruct (new_Set_spec values) as [Hnd Hin].
  split; [apply Array_sort_sorted|]. split.
  - apply (Permutation_NoDup (Array_sort_perm _) Hnd).
  - intros x. rewrite <- Hin. split.
    + apply Permutation_in, Permutation_sym, Array_sort_perm.
    + apply Permutation_in, Array_sort_perm.
Qed.

(** ** Pages of a listing *)

Lemma windows_concat {A} (n : nat) (l : list A) (m : nat) :
  concat (map (fun k => firstn n (skipn (k * n) l)) (seq 0 m)) = firstn (m * n) l.
Proof.
  induction m as [|m IH]; [reflexivity|].
  rewrite seq_S, map_app, concat_app, IH. cbn [map concat Nat.add].
  rewrite app_nil_r.
  pose proof (firstn_slice l (m * n) n) as H. unfold slice in H.
  replace (m * n + n - m * n) with n in H by lia.
  rewrite H. f_equal. lia.
Qed.

Lemma filter_length_le {A} (f g : A -> bool) (l : list A) :
  (forall x, f x = true -> g x = true) ->
  length (filter f l) <= length (filter g l).
Proof.
  intros Hfg. induction l as [|x l IH]; [reflexivity|]. cbn [filter].
  destruct (f x) eqn:F.
  - rewrite (Hfg x F). cbn [length]. lia.
  - destruct (g x); cbn [length]; lia.
Qed.

Section PagingFacts.

Variable fault : World -> Request -> option PostgrestError.
Variable gen_random_uuid : nat -> string.
Variable now : World -> string.
Variable may_delete : Lead -> bool.

Local Abbreviation getLeadsByCampaign := (getLeadsByCampaign fault gen_random_uuid now may_delete).
Local Abbreviation getLeadStatsByCampaign := (getLeadStatsByCampaign fault gen_random_uuid now may_delete).
Local Abbreviation getLeadFilterOptions := (getLeadFilterOptions fault gen_random_uuid now may_delete).

(** X6: on a store that answers, the filter options of a campaign list, for
    jobs and for education levels, exactly the values that occur among the
    campaign's leads, each once, in ascending order; a refused query throws
    ["Failed to fetch filter options: "] with the store's message. *)
Theorem getLeadFilterOptions_spec (cid : string) (w : World) :
  match fault w (Select (filter_options_query cid)) with
  | None =>
      exists v,
        fst (getLeadFilterOptions cid w) = Return v /\
        Sorted ascending (jobs v) /\ NoDup (jobs v) /\
        (forall j, In j (jobs v) <->
                   exists l, In l (leads_table w) /\ campaign_run_id l = cid /\ job l = j) /\
        Sorted ascending (educationLevels v) /\ NoDup (educationLevels v) /\
        (forall e, In e (educationLevels v) <->
                   exists l, In l (leads_table w) /\ campaign_run_id l = cid /\
                             education l = e)
  | Some e =>
      fst (getLeadFilterOptions cid w)
      = Throw (String.append "Failed to fetch filter options: " (message e))
  end.
Proof.
  unfold getLeadFilterOptions, bind, exec. fold (filter_options_query cid).
  destruct (fault w (Select (filter_options_query cid))) as [e|]; [reflexivity|].
  cbn [run_select filter_options_query conds count_exact order_probability_desc range
       error data rows_or_empty fst snd ret].
  rewrite matches_campaign.
  assert (Hmem : forall (col : Lead -> string) x,
             In x (map col (leads_of cid (leads_table w))) <->
             exists l, In l (leads_table w) /\ campaign_run_id l = cid /\ col l = x).
  { intros col x. rewrite in_map_iff. unfold leads_of. split.
    - intros (l & Hx & Hl). apply filter_In in Hl. destruct Hl as [Hl Hc].
      apply String.eqb_eq in Hc. now exists l.
    - intros (l & Hl & Hc & Hx). exists l. split; [exact Hx|].
      apply filter_In. split; [exact Hl|]. now apply String.eqb_eq. }
  destruct (sorted_distinct_spec (map job (leads_of cid (leads_table w))))
    as (Hs1 & Hn1 & Hi1).
  destruct (sorted_distinct_spec (map education (leads_of cid (leads_table w))))
    as (Hs2 & Hn2 & Hi2).
  eexists. split; [reflexivity|]. cbn [jobs educationLevels].
  split; [exact Hs1|]. split; [exact Hn1|].
  split; [intros j; now rewrite Hi1, Hmem|].
  split; [exact Hs2|]. split; [exact Hn2|].
  intros e. now rewrite Hi2, Hmem.
Qed.

(** X7: on a store that answers, with a page size of at least 1, the pages
    1 to [totalPages] one after the other are the matching leads in
    descending order of probability, each exactly once; every page reports
    the same [totalPages]. *)
Theorem listing_pages_cover (cid : string) (ps : Z) (filters : LeadFilterOptions)
        (w : World) :
  (1 <= ps)%Z ->
  (forall q, fault w (Select q) = None) ->
  exists pages,
    (forall pg r,
        fst (getLeadsByCampaign cid {| page := Some pg; pageSize := Some ps |} filters w)
        = Return r -> pl_totalPages r = Z.of_nat pages) /\
    concat (map (fun k =>
                   page_items
                     (fst (getLeadsByCampaign cid
                             {| page := Some (Z.of_nat k + 1)%Z; pageSize := Some ps |}
                             filters w)))
                (seq 0 pages))
    = map toListItem (order_desc (matching cid filters (leads_table w))).
Proof.
  intros Hps Hf.
  set (sorted := order_desc (matching cid filters (leads_table w))).
  set (n := length (matching cid filters (leads_table w))).
  pose proof (Math_ceil_div_spec (Z.of_nat n) ps Hps) as [Hlo Hhi].
  assert (Hnonneg : (0 <= Math_ceil_div (Z.of_nat n) ps)%Z) by nia.
  exists (Z.to_nat (Math_ceil_div (Z.of_nat n) ps)). split.
  - intros pg r Hr. rewrite (listing_answered fault gen_random_uuid now may_delete cid pg ps filters w (Hf _)) in Hr.
    injection Hr as <-. cbn [pl_totalPages]. fold n. lia.
  - rewrite (map_ext _ (fun k => map toListItem
                                     (firstn (Z.to_nat ps) (skipn (k * Z.to_nat ps) sorted)))).
    + rewrite <- (map_map (fun k => firstn (Z.to_nat ps) (skipn (k * Z.to_nat ps) sorted))
                          (map toListItem)).
      rewrite <- concat_map, windows_concat. f_equal. apply firstn_all2.
      unfold sorted. rewrite <- (Permutation_length (order_desc_perm _)). fold n. nia.
    + intros k.
      rewrite (listing_answered fault gen_random_uuid now may_delete cid _ ps filters w (Hf _)).
      cbn [page_items pl_data]. fold sorted. unfold in_range. f_equal.
      replace (Z.of_nat k + 1 - 1)%Z with (Z.of_nat k) by lia.
      replace (Z.of_nat k * ps + ps - 1 - Z.of_nat k * ps + 1)%Z with ps by lia.
      f_equal. f_equal. nia.
Qed.

(** X8: on a store that answers, for a page number and a page size of at
    least 1, a page holds [pageSize] items as long as that many matching
    leads remain after its offset, the remaining ones otherwise, and none
    when the offset is beyond the last matching lead. *)
Theorem listing_page_length (cid : string) (pg ps : Z) (filters : LeadFilterOptions)
        (w : World) :
  (1 <= pg)%Z -> (1 <= ps)%Z ->
  fault w (Select (listing_query cid pg ps filters)) = None ->
  exists r,
    fst (getLeadsByCampaign cid {| page := Some pg; pageSize := Some ps |} filters w)
    = Return r /\
    Z.of_nat (length (pl_data r))
    = Z.max 0 (Z.min ps (Z.of_nat (pl_total r) - (pg - 1) * ps)).
Proof.
  intros Hpg Hps Hf. eexists. split; [apply listing_answered, Hf|].
  cbn [pl_data pl_total]. rewrite length_map. unfold in_range.
  rewrite length_firstn, length_skipn.
  rewrite <- (Permutation_length (order_desc_perm _)).
  replace ((pg - 1) * ps + ps - 1 - (pg - 1) * ps + 1)%Z with ps by lia.
  nia.
Qed.

(** X9: on a store that answers, the [total] of a listing never exceeds the
    [total] of the campaign's statistics, and without filters the two are
    equal. *)
Theorem listing_total_vs_stats (cid : string) (options : LeadPaginationOptions)
        (filters : LeadFilterOptions) (w : World) :
  (forall q, fault w (Select q) = None) ->
  exists r r0 s,
    fst (getLeadsByCampaign cid options filters w) = Return r /\
    fst (getLeadsByCampaign cid options no_filters w) = Return r0 /\
    fst (getLeadStatsByCampaign cid w) = Return s /\
    pl_total r <= total s /\
    pl_total r0 = total s.
Proof.
  intros Hf.
  assert (Hlist : forall fl,
             exists r, fst (getLeadsByCampaign cid options fl w) = Return r /\
                       pl_total r = length (matching cid fl (leads_table w))).
  { intros fl. unfold getLeadsByCampaign, bind, exec.
    fold (listing_conds cid fl). rewrite Hf. eexists. split; reflexivity. }
  destruct (Hlist filters) as (r & Hr & Hrt).
  destruct (Hlist no_filters) as (r0 & Hr0 & Hr0t).
  assert (Hstats : exists s, fst (getLeadStatsByCampaign cid w) = Return s /\
                             total s = length (leads_of cid (leads_table w))).
  { rewrite (stats_answered fault gen_random_uuid now may_delete cid w (Hf _)). cbv zeta.
    destruct (Nat.eqb_spec (length (leads_of cid (leads_table w))) 0) as [E|E];
      eexists; (split; [reflexivity|]); cbn [total]; congruence. }
  destruct Hstats as (s & Hs & Hst).
  exists r, r0, s. repeat split; try assumption.
  - rewrite Hrt, Hst. unfold matching, leads_of. apply filter_length_le.
    intros l Hl. apply listing_conds_spec in Hl. destruct Hl as [Hc _].
    now apply String.eqb_eq.
  - rewrite Hr0t, Hst. unfold matching.
    change (listing_conds cid no_filters) with [eq_text col_campaign_run_id cid].
    now rewrite matches_campaign.
Qed.

End PagingFacts.

(** ** Errors of the lead operations as HTTP responses *)

Section ErrorResponses.

Variable fault : World -> Request -> option PostgrestError.
Variable gen_random_uuid : nat -> string.
Variable now : World -> string.
Variable may_delete : Lead -> bool.

Local Abbreviation getLeadsByCampaign := (getLeadsByCampaign fault gen_random_uuid now may_delete).
Local Abbreviation getLeadById := (getLeadById fault gen_random_uuid now may_delete).
Local Abbreviation getLeadStatsByCampaign := (getLeadStatsByCampaign fault gen_random_uuid now may_delete).
Local Abbreviation getLeadFilterOptions := (getLeadFilterOptions fault gen_random_uuid now may_delete).
Local Abbreviation bulkInsertLeads := (bulkInsertLeads fault gen_random_uuid now may_delete).
Local Abbreviation deleteLeadsByCampaign := (deleteLeadsByCampaign fault gen_random_uuid now may_delete).
Local Abbreviation first_refusal := (first_refusal fault gen_random_uuid now).

(** X10: whenever one of the four read operations on leads throws,
    [handleApiError] answers 503 with the error ["Database connection
    error"] and the thrown message as details. *)
Theorem read_failure_is_503 (T : Type) (cid lid : string)
        (options : LeadPaginationOptions) (filters : LeadFilterOptions)
        (w : World) (m : string) :
  fst (getLeadsByCampaign cid options filters w) = Throw m \/
  fst (getLeadById lid w) = Throw m \/
  fst (getLeadStatsByCampaign cid w) = Throw m \/
  fst (getLeadFilterOptions cid w) = Throw m ->
  @handleApiError T (JsError m)
  = {| http_status := 503; body := ApiError "Database connection error" (Some m) |}.
Proof.
  intros [H|[H|[H|H]]].
  - unfold getLeadsByCampaign, bind, exec in H.
    destruct (fault w _) as [e|]; cbn in H; [|discriminate].
    injection H as <-. reflexivity.
  - unfold getLeadById, bind, exec in H.
    destruct (fault w _) as [e|]; cbn [fst snd error data] in H.
    + destruct (String.eqb (code e) "PGRST116"); [discriminate|].
      cbn in H. injection H as <-. reflexivity.
    + destruct (fst (run_select _ (leads_table w))) as [|l [|l' rest]];
        cbn in H; discriminate.
  - unfold getLeadStatsByCampaign, bind, exec in H.
    destruct (fault w _) as [e|]; cbn [fst snd error data] in H.
    + cbn in H. injection H as <-. reflexivity.
    + cbn [run_select conds count_exact order_probability_desc range
           rows_or_empty fst snd] in H.
      destruct (length _ =? 0); cbn in H; discriminate.
  - unfold getLeadFilterOptions, bind, exec in H.
    destruct (fault w _) as [e|]; cbn in H; [|discriminate].
    injection H as <-. reflexivity.
Qed.

(** X11: whenever the bulk insert throws, the store refused a chunk, and the
    thrown message is ["Failed to insert leads: "] followed by the message
    of the store's error for the first refused chunk; whenever the delete
    throws, the store refused the delete request, and the thrown message is
    ["Failed to delete leads: "] followed by the message of that error.  In
    both cases [handleApiError] answers 500 with the thrown message as the
    error and no details, unless the store's own message contains ["Failed
    to fetch"], in which case it answers 503. *)
Theorem write_failure_is_500 (T : Type) (cid : string)
        (leads : list CreateLeadPayload) (w : World) :
  (forall m,
      fst (bulkInsertLeads leads w) = Some (Throw m) ->
      exists k e,
        first_refusal leads w k e /\
        m = String.append "Failed to insert leads: " (message e) /\
        @handleApiError T (JsError m)
        = if includes (message e) "Failed to fetch"
          then {| http_status := 503;
                  body := ApiError "Database connection error" (Some m) |}
          else {| http_status := 500; body := ApiError m None |}) /\
  (forall m,
      fst (deleteLeadsByCampaign cid w) = Throw m ->
      exists e,
        fault w (delete_request cid) = Some e /\
        m = String.append "Failed to delete leads: " (message e) /\
        @handleApiError T (JsError m)
        = if includes (message e) "Failed to fetch"
          then {| http_status := 503;
                  body := ApiError "Database connection error" (Some m) |}
          else {| http_status := 500; body := ApiError m None |}).
Proof.
  split; intros m H.
  - pose proof (ceil_div_bounds (length leads)) as B.
    destruct (refusal_search fault gen_random_uuid now leads w
                             (ceil_div (length leads) BATCH_SIZE))
      as [Hnone|(k & e & Hk & Hbefore & Hat)].
    + assert (Hok : no_refusal fault gen_random_uuid now leads w).
      { intros j Hj. apply Hnone. unfold BATCH_SIZE in *. nia. }
      rewrite (bulkInsertLeads_accepted fault gen_random_uuid now may_delete leads w Hok)
        in H.
      discriminate H.
    + assert (Hk' : first_refusal leads w k e).
      { repeat split; [unfold BATCH_SIZE in *; nia|exact Hbefore|exact Hat]. }
      assert (Hrun : bulkInsertLeads leads w
                     = (Some (Throw (String.append "Failed to insert leads: "
                                                   (message e))),
                        refused (world_after gen_random_uuid now leads w k)
                                (Insert (chunk leads k)))).
      { apply (bulk_loop_refused fault gen_random_uuid now may_delete leads w k e Hk'
                                 (S (length leads)) 0 0); [unfold BATCH_SIZE; lia|lia]. }
      rewrite Hrun in H. cbn [fst] in H. injection H as <-.
      exists k, e. split; [exact Hk'|]. split; [reflexivity|].
      unfold handleApiError.
      lazymatch goal with
      | |- (if includes ?M _ then _ else _) = _ =>
          change (includes M "Failed to fetch")
            with (includes (message e) "Failed to fetch")
      end.
      destruct (includes (message e) "Failed to fetch"); reflexivity.
  - unfold deleteLeadsByCampaign, bind, exec, ret in H. fold (delete_request cid) in H.
    destruct (fault w (delete_request cid)) as [e|]; cbn [fst snd error] in H;
      [|discriminate].
    injection H as <-. exists e. split; [reflexivity|]. split; [reflexivity|].
    unfold handleApiError.
    lazymatch goal with
    | |- (if includes ?M _ then _ else _) = _ =>
        change (includes M "Failed to fetch")
          with (includes (message e) "Failed to fetch")
    end.
    destruct (includes (message e) "Failed to fetch"); reflexivity.
Qed.

End ErrorResponses.

(** ** Users *)

Lemma filter_unique {A} (key : A -> string) (v : string) (l : list A) :
  NoDup (map key l) ->
  filter (fun x => String.eqb (key x) v) l = [] \/
  exists u, filter (fun x => String.eqb (key x) v) l = [u].
Proof.
  induction l as [|x l IH]; intros Hnd; [now left|].
  cbn [map] in Hnd. inversion Hnd as [|k ks Hx Hnd']; subst.
  cbn [filter]. destruct (String.eqb_spec (key x) v) as [E|E].
  - right. exists x. f_equal.
    destruct (filter (fun y => String.eqb (key y) v) l) as [|y rest] eqn:F;
      [reflexivity|].
    exfalso. apply Hx.
    assert (Hy : In y (filter (fun y => String.eqb (key y) v) l))
      by (rewrite F; now left).
    apply filter_In in Hy. destruct Hy as [Hy Hk]. apply String.eqb_eq in Hk.
    rewrite E, <- Hk. now apply in_map.
  - now apply IH.
Qed.

Lemma filter_nil_iff {A} (key : A -> string) (v : string) (l : list A) :
  filter (fun x => String.eqb (key x) v) l = [] <-> ~ In v (map key l).
Proof.
  split.
  - intros F Hin. apply in_map_iff in Hin. destruct Hin as (x & Hk & Hx).
    assert (Hf : In x (filter (fun y => String.eqb (key y) v) l)).
    { apply filter_In. split; [exact Hx|]. now apply String.eqb_eq. }
    rewrite F in Hf. exact Hf.
  - intros Hnot. destruct (filter (fun x => String.eqb (key x) v) l) as [|y rest] eqn:F;
      [reflexivity|].
    exfalso. apply Hnot.
    assert (Hy : In y (filter (fun x => String.eqb (key x) v) l))
      by (rewrite F; now left).
    apply filter_In in Hy. destruct Hy as [Hy Hk]. apply String.eqb_eq in Hk.
    rewrite <- Hk. now apply in_map.
Qed.

(** X12: on a store that answers and a [users] table with unique usernames,
    [isUsernameAvailable] returns true exactly when no user carries the
    name, which is exactly when [getUserByUsername] returns null; for a name
    some user carries, the lookup returns that user and the name is reported
    as taken. *)
Theorem username_available_iff (b : Backend) (uname : string) :
  users_fault b = None ->
  NoDup (map username (users_table b)) ->
  (isUsernameAvailable b uname = Return true <->
   ~ In uname (map username (users_table b))) /\
  (isUsernameAvailable b uname = Return true <->
   getUserByUsername b uname = Return None) /\
  (forall u, In u (users_table b) -> username u = uname ->
             getUserByUsername b uname = Return (Some u) /\
             isUsernameAvailable b uname = Return false).
Proof.
  intros Hf Hnd.
  unfold isUsernameAvailable, getUserByUsername, users_maybeSingle, users_single.
  rewrite Hf.
  pose proof (filter_nil_iff username uname (users_table b)) as Hnil.
  destruct (filter_unique username uname (users_table b) Hnd) as [F|(x & F)];
    rewrite F in *; cbn.
  - split; [|split].
    + split; [intros _; now apply Hnil|reflexivity].
    + split; reflexivity.
    + intros u Hu Hname. exfalso.
      apply (proj1 Hnil Logic.eq_refl). rewrite <- Hname. now apply in_map.
  - assert (Htaken : In uname (map username (users_table b))).
    { assert (Hx : In x (filter (fun y => String.eqb (username y) uname) (users_table b)))
        by (rewrite F; now left).
      apply filter_In in Hx. destruct Hx as [Hx Hk]. apply String.eqb_eq in Hk.
      rewrite <- Hk. now apply in_map. }
    split; [|split].
    + split; [discriminate|intros Hnot; contradiction].
    + split; discriminate.
    + intros u Hu Hname.
      assert (Hin : In u (filter (fun y => String.eqb (username y) uname) (users_table b))).
      { apply filter_In. split; [exact Hu|]. now apply String.eqb_eq. }
      rewrite F in Hin. destruct Hin as [->|[]]. split; reflexivity.
Qed.

(** X13: [getCurrentUser] returns null without consulting the [users] table
    when there is no session, whatever the state of the store; when it
    returns a user, there is a session and the user is a row of the table
    whose id is the id of the session's user. *)
Theorem getCurrentUser_is_session_user (b : Backend) :
  (auth_user b = None -> getCurrentUser b = Return None) /\
  (forall u, getCurrentUser b = Return (Some u) ->
             exists a, auth_user b = Some a /\ u_id u = au_id a /\
                       In u (users_table b)).
Proof.
  unfold getCurrentUser. split.
  - intros ->. reflexivity.
  - intros u. destruct (auth_user b) as [a|]; [|discriminate].
    unfold getUserById, users_single.
    destruct (users_fault b) as [e|].
    + destruct (String.eqb (code e) "PGRST116"); discriminate.
    + destruct (filter (fun x => String.eqb (u_id x) (au_id a)) (users_table b))
        as [|x [|y rest]] eqn:F; cbn; try discriminate.
      intros [= <-]. exists a. split; [reflexivity|].
      assert (Hx : In x (filter (fun x => String.eqb (u_id x) (au_id a)) (users_table b)))
        by (rewrite F; now left).
      apply filter_In in Hx. destruct Hx as [Hx Hk]. apply String.eqb_eq in Hk.
      now split.
Qed.

(** X17: [getUserById] treats a missing user as null, not as an error.  On a
    store that answers and a [users] table with unique ids it returns the
    row that carries the id, and null when none does; when the store refuses
    the query with a code other than PGRST116 it throws ["Failed to fetch
    user: "] with the store's message. *)
Theorem getUserById_cases (b : Backend) (uid : string) :
  (users_fault b = None -> NoDup (map u_id (users_table b)) ->
   (~ In uid (map u_id (users_table b)) -> getUserById b uid = Return None) /\
   (forall u, In u (users_table b) -> u_id u = uid ->
              getUserById b uid = Return (Some u))) /\
  (forall e, users_fault b = Some e -> code e <> "PGRST116" ->
             getUserById b uid
             = Throw (String.append "Failed to fetch user: " (message e))).
Proof.
  unfold getUserById, users_single. split.
  - intros Hf Hnd. rewrite Hf.
    pose proof (filter_nil_iff u_id uid (users_table b)) as Hnil.
    destruct (filter_unique u_id uid (users_table b) Hnd) as [F|(x & F)];
      rewrite F in *; cbn.
    + split; [reflexivity|]. intros u Hu Hid. exfalso.
      apply (proj1 Hnil Logic.eq_refl). rewrite <- Hid. now apply in_map.
    + split.
      * intros Hnot. apply Hnil in Hnot. discriminate Hnot.
      * intros u Hu Hid.
        assert (Hin : In u (filter (fun y => String.eqb (u_id y) uid) (users_table b))).
        { apply filter_In. split; [exact Hu|]. now apply String.eqb_eq. }
        rewrite F in Hin. destruct Hin as [->|[]]. reflexivity.
  - intros e Hf Hcode. rewrite Hf. cbn.
    destruct (String.eqb_spec (code e) "PGRST116") as [E|_]; [contradiction|].
    reflexivity.
Qed.

(** ** Pagination flags *)

(** X14: for a page size of at least 1 and [totalPages] the ceiling of
    [totalCount / pageSize], as [getLeadsByCampaign] computes it,
    [apiPaginated] reports a next page exactly when rows remain after the
    current page, and a previous page exactly when the page number exceeds
    1. *)
Theorem apiPaginated_flags (T : Type) (items : list T) (p : Pagination) :
  (1 <= pg_pageSize p)%Z ->
  pg_totalPages p = Math_ceil_div (pg_totalCount p) (pg_pageSize p) ->
  (hasNextPage (pr_pagination (apiPaginated items p None)) = true <->
   (pg_page p * pg_pageSize p < pg_totalCount p)%Z) /\
  (hasPreviousPage (pr_pagination (apiPaginated items p None)) = true <->
   (1 < pg_page p)%Z).
Proof.
  intros Hps Htp. cbn [apiPaginated pr_pagination hasNextPage hasPreviousPage].
  rewrite !Z.ltb_lt, Htp.
  pose proof (Math_ceil_div_spec (pg_totalCount p) (pg_pageSize p) Hps) as [Hlo Hhi].
  split; [|reflexivity]. split; intros H; nia.
Qed.

(** ** Route handlers *)

Section RouteFacts.

Variable fault : World -> Request -> option PostgrestError.
Variable gen_random_uuid : nat -> string.
Variable now : World -> string.
Variable may_delete : Lead -> bool.
Variable getCampaignById : string -> M (completion (option CampaignRun)).
Variable deleteCampaign : string -> M (completion unit).

Local Abbreviation stats_GET := (stats_GET fault gen_random_uuid now may_delete getCampaignById).
Local Abbreviation campaign_DELETE := (campaign_DELETE getCampaignById deleteCampaign).
Local Abbreviation getLeadStatsByCampaign := (getLeadStatsByCampaign fault gen_random_uuid now may_delete).

(** X15: the statistics handler.  Without a session it answers 401 and
    touches nothing; for a campaign the lookup does not find it answers 404
    without querying the leads; otherwise it answers 200 with the statistics
    of [getLeadStatsByCampaign], or 503 ["Database connection error"] when
    the store refuses the statistics query; it never changes the leads
    table after the campaign lookup. *)
Theorem stats_GET_cases (b : Backend) (cid : string) (w : World) :
  (auth_user b = None ->
   stats_GET b cid w = (apiError "Authentication required" (Some 401%Z) None, w)) /\
  (forall u, getCurrentUser b = Return (Some u) ->
     (fst (getCampaignById cid w) = Return None ->
      stats_GET b cid w
      = (apiError "Campaign not found" (Some 404%Z) None, snd (getCampaignById cid w))) /\
     (forall c, fst (getCampaignById cid w) = Return (Some c) ->
        leads_table (snd (stats_GET b cid w))
        = leads_table (snd (getCampaignById cid w)) /\
        match fault (snd (getCampaignById cid w)) (Select (stats_query cid)) with
        | None =>
            exists s,
              fst (getLeadStatsByCampaign cid (snd (getCampaignById cid w))) = Return s /\
              fst (stats_GET b cid w)
              = {| http_status := 200; body := ApiSuccess s None |}
        | Some e =>
            fst (stats_GET b cid w)
            = {| http_status := 503;
                 body := ApiError "Database connection error"
                           (Some (String.append "Failed to fetch lead stats: "
                                                (message e))) |}
        end)).
Proof.
  split.
  - intros Hnone. unfold stats_GET, getCurrentUser. rewrite Hnone. reflexivity.
  - intros u Hu. unfold stats_GET. rewrite Hu. unfold bind.
    destruct (getCampaignById cid w) as [c0 w1]. cbn [fst snd]. split.
    + intros ->. reflexivity.
    + intros c ->.
      pose proof (stats_world fault gen_random_uuid now may_delete cid w1) as Hw.
      destruct (fault w1 (Select (stats_query cid))) as [e|] eqn:Hf.
      * unfold getLeadStatsByCampaign, bind, exec in *. fold (stats_query cid) in *.
        rewrite Hf in *. cbn [fst snd error ret] in *. split; reflexivity.
      * pose proof (stats_answered fault gen_random_uuid now may_delete cid w1 Hf) as Hs.
        cbv zeta in Hs.
        destruct (getLeadStatsByCampaign cid w1) as [s w2].
        cbn [fst snd] in Hs, Hw. subst w2.
        destruct (length (leads_of cid (leads_table w1)) =? 0); subst s;
          (split; [reflexivity|]); eexists; split; reflexivity.
Qed.

(** X16: the delete handler, for a signed-in user and a campaign the lookup
    finds.  When the user neither created the campaign nor has the role
    ["admin"], which includes every campaign without a creator, it answers
    403 and the campaign delete is not run; otherwise the delete is run, and
    when it returns the answer is 200 with the id and the message
    ["Campaign deleted successfully"]. *)
Theorem campaign_DELETE_authorisation (b : Backend) (cid : string) (w : World)
        (u : User) (c : CampaignRun) :
  getCurrentUser b = Return (Some u) ->
  fst (getCampaignById cid w) = Return (Some c) ->
  (created_by c <> Some (u_id u) -> role u <> "admin" ->
   campaign_DELETE b cid w
   = (apiError "You don't have permission to delete this campaign" (Some 403%Z) None,
      snd (getCampaignById cid w))) /\
  (created_by c = Some (u_id u) \/ role u = "admin" ->
   snd (campaign_DELETE b cid w)
   = snd (deleteCampaign cid (snd (getCampaignById cid w))) /\
   (forall r, fst (deleteCampaign cid (snd (getCampaignById cid w))) = Return r ->
              fst (campaign_DELETE b cid w)
              = {| http_status := 200;
                   body := ApiSuccess cid (Some "Campaign deleted successfully") |})).
Proof.
  intros Hu Hc. unfold campaign_DELETE. rewrite Hu. unfold bind.
  destruct (getCampaignById cid w) as [c0 w1]. cbn [fst snd] in *. subst c0.
  assert (Hcreator : (match created_by c with
                      | Some creator => String.eqb creator (u_id u)
                      | None => false
                      end) = true <-> created_by c = Some (u_id u)).
  { destruct (created_by c) as [creator|].
    - rewrite String.eqb_eq. split; [now intros ->|now intros [= ->]].
    - split; discriminate. }
  split.
  - intros Hnot Hrole.
    destruct (match created_by c with
              | Some creator => String.eqb creator (u_id u)
              | None => false
              end) eqn:E; [now elim Hnot; apply Hcreator|].
    destruct (String.eqb_spec (role u) "admin") as [Hr|_]; [contradiction|].
    reflexivity.
  - intros Hallowed.
    assert (Hgo : negb (match created_by c with
                        | Some creator => String.eqb creator (u_id u)
                        | None => false
                        end) && negb (String.eqb (role u) "admin") = false).
    { destruct Hallowed as [Hcr|Hr].
      - apply Hcreator in Hcr. now rewrite Hcr.
      - rewrite Hr, String.eqb_refl. apply andb_false_r. }
    rewrite Hgo.
    destruct (deleteCampaign cid w1) as [d w2]. cbn [fst snd].
    split; [now destruct d|]. intros r ->. reflexivity.
Qed.

End RouteFacts.

(** ** Concrete runs of the further properties *)

Lemma listing_pages_cover_witness :
  page_items (fst (getLeadsByCampaign never_refuses uuid_of epoch unrestricted "c1"
                     (two_per_page 1) no_filters four_lead_table))
  ++ page_items (fst (getLeadsByCampaign never_refuses uuid_of epoch unrestricted "c1"
                        (two_per_page 2) no_filters four_lead_table))
  = map toListItem (order_desc (matching "c1" no_filters (leads_table four_lead_table))).
Proof.
  destruct (listing_pages_cover never_refuses uuid_of epoch unrestricted "c1" 2 no_filters
                                four_lead_table) as (pages & Htp & Hall).
  - lia.
  - intros q. reflexivity.
  - assert (Hp : Z.of_nat pages = 2%Z).
    { rewrite <- (Htp 1%Z _ (listing_answered never_refuses uuid_of epoch unrestricted "c1" 1 2
                                              no_filters four_lead_table Logic.eq_refl)).
      vm_compute. reflexivity. }
    assert (pages = 2) as -> by lia.
    cbn [seq map concat] in Hall. rewrite app_nil_r in Hall. exact Hall.
Defined.

Lemma listing_page_length_witness :
  exists r,
    fst (getLeadsByCampaign never_refuses uuid_of epoch unrestricted "c1" (two_per_page 2)
           no_filters four_lead_table) = Return r /\
    length (pl_data r) = 1.
Proof.
  destruct (listing_page_length never_refuses uuid_of epoch unrestricted "c1" 2 2 no_filters
                                four_lead_table) as (r & Hr & Hlen);
    [lia|lia|reflexivity|].
  exists r. split; [exact Hr|].
  assert (E : pl_total r = 3).
  { rewrite (listing_answered never_refuses uuid_of epoch unrestricted "c1" 2 2 no_filters
                              four_lead_table Logic.eq_refl) in Hr.
    injection Hr as <-. reflexivity. }
  rewrite E in Hlen. lia.
Defined.

Lemma listing_total_vs_stats_witness :
  exists r s,
    fst (getLeadsByCampaign never_refuses uuid_of epoch unrestricted "c1" default_options
           high_risk_only four_lead_table) = Return r /\
    fst (getLeadStatsByCampaign never_refuses uuid_of epoch unrestricted "c1" four_lead_table)
    = Return s /\
    pl_total r <= total s.
Proof.
  destruct (listing_total_vs_stats never_refuses uuid_of epoch unrestricted "c1" default_options
                                   high_risk_only four_lead_table)
    as (r & r0 & s & Hr & _ & Hs & Hle & _).
  - intros q. reflexivity.
  - exists r, s. split; [exact Hr|]. split; [exact Hs|exact Hle].
Defined.

Lemma read_failure_is_503_witness :
  @handleApiError unit
    (JsError "Failed to fetch lead stats: canceling statement due to statement timeout")
  = {| http_status := 503;
       body := ApiError "Database connection error"
                 (Some "Failed to fetch lead stats: canceling statement due to statement timeout") |}.
Proof.
  apply (read_failure_is_503 refuses_reads uuid_of epoch unrestricted unit "c1" "lead-0"
                             default_options no_filters four_lead_table).
  right. right. left. reflexivity.
Defined.

Lemma write_failure_is_500_witness :
  @handleApiError unit
    (JsError "Failed to insert leads: canceling statement due to statement timeout")
  = {| http_status := 500;
       body := ApiError
                 "Failed to insert leads: canceling statement due to statement timeout"
                 None |}.
Proof.
  destruct (write_failure_is_500 refuses_short_batches uuid_of epoch unrestricted unit
              "c1" (sample_leads 1) empty_world) as (Hinsert & _).
  destruct (Hinsert "Failed to insert leads: canceling statement due to statement timeout"
                    Logic.eq_refl) as (k & e & (_ & _ & Hat) & Hform & Hres).
  assert (Hm : message e = "canceling statement due to statement timeout").
  { cbn [String.append] in Hform. injection Hform as Hform. symmetry. exact Hform. }
  rewrite Hm in Hres. exact Hres.
Defined.

Lemma username_available_iff_witness :
  isUsernameAvailable (signed_in analyst) "rina" = Return true /\
  isUsernameAvailable (signed_in analyst) "sari" = Return false.
Proof.
  destruct (username_available_iff (signed_in analyst) "rina") as (Hfree & _ & _).
  - reflexivity.
  - cbn. repeat constructor; cbn; intuition discriminate.
  - destruct (username_available_iff (signed_in analyst) "sari") as (_ & _ & Htaken).
    + reflexivity.
    + cbn. repeat constructor; cbn; intuition discriminate.
    + split.
      * apply Hfree. cbn. intuition discriminate.
      * apply (Htaken analyst); [left; reflexivity|reflexivity].
Defined.

Lemma apiPaginated_flags_witness :
  hasNextPage
    (pr_pagination
       (apiPaginated ["a"; "b"]
                     {| pg_page := 1; pg_pageSize := 2; pg_totalPages := 2;
                        pg_totalCount := 3 |} None)) = true.
Proof.
  apply (apiPaginated_flags string ["a"; "b"]
                            {| pg_page := 1; pg_pageSize := 2; pg_totalPages := 2;
                               pg_totalCount := 3 |}).
  - cbn. lia.
  - reflexivity.
  - cbn. lia.
Defined.

Lemma stats_GET_cases_witness :
  fst (stats_GET never_refuses uuid_of epoch unrestricted (lookup_campaign (Some "u-1"))
                 (signed_in analyst) "c1" four_lead_table)
  = {| http_status := 200;
       body := ApiSuccess {| total := 3; highRisk := 1; mediumRisk := 1; lowRisk := 1;
                             avgProbability := Some (Finite (1 # 2)) |} None |}.
Proof.
  destruct (stats_GET_cases never_refuses uuid_of epoch unrestricted (lookup_campaign (Some "u-1"))
                            (signed_in analyst) "c1" four_lead_table) as (_ & Huser).
  destruct (Huser analyst Logic.eq_refl) as (_ & Hfound).
  destruct (Hfound (campaign_of (Some "u-1")) Logic.eq_refl) as (_ & s & Hs & Hres).
  rewrite Hres. f_equal. f_equal.
  assert (E : Return s = Return {| total := 3; highRisk := 1; mediumRisk := 1;
                                   lowRisk := 1;
                                   avgProbability := Some (Finite (1 # 2)) |})
    by (rewrite <- Hs; vm_compute; reflexivity).
  now injection E.
Defined.

Lemma campaign_DELETE_authorisation_witness :
  campaign_DELETE (lookup_campaign (Some "u-2")) cascade_delete
                  (signed_in analyst) "c1" four_lead_table
  = (apiError "You don't have permission to delete this campaign" (Some 403%Z) None,
     four_lead_table) /\
  leads_of "c1"
    (leads_table (snd (campaign_DELETE (lookup_campaign (Some "u-2")) cascade_delete
                                       (signed_in administrator) "c1" four_lead_table)))
  = [].
Proof.
  split.
  - apply (campaign_DELETE_authorisation (lookup_campaign (Some "u-2")) cascade_delete
             (signed_in analyst) "c1" four_lead_table analyst
             (campaign_of (Some "u-2")));
      [reflexivity|reflexivity|cbn; discriminate|cbn; discriminate].
  - destruct (campaign_DELETE_authorisation
                (lookup_campaign (Some "u-2")) cascade_delete
                (signed_in administrator) "c1" four_lead_table administrator
                (campaign_of (Some "u-2")) Logic.eq_refl Logic.eq_refl)
      as (_ & Hrun).
    destruct (Hrun (or_introl Logic.eq_refl)) as (Hw & _).
    rewrite Hw. reflexivity.
Defined.

Lemma getUserById_cases_witness :
  getUserById (signed_in analyst) "u-2" = Return (Some administrator) /\
  getUserById (signed_in analyst) "u-9" = Return None.
Proof.
  destruct (getUserById_cases (signed_in analyst) "u-2") as (Hfound & _).
  destruct (getUserById_cases (signed_in analyst) "u-9") as (Hmissing & _).
  assert (Hnd : NoDup (map u_id (users_table (signed_in analyst))))
    by (cbn; repeat constructor; cbn; intuition discriminate).
  split.
  - apply (Hfound Logic.eq_refl Hnd); [right; left; reflexivity|reflexivity].
  - apply (Hmissing Logic.eq_refl Hnd). cbn. intuition discriminate.
Defined.
